(** * A shallow embedding of [app/services/executor.py]

    The WASM sandbox executor of the code-interpreter service: output
    sanitising ([_truncate]), runtime and module resolution
    ([_locate_runtime], [_resolve_wasm_runtime]), stdlib discovery
    ([_discover_stdlib_paths]), command assembly and process supervision
    ([execute_python]). *)

From Stdlib Require Import Bool List Arith Lia ZArith NArith.
From Stdlib Require Import Strings.String Strings.Ascii Strings.Byte.
Import ListNotations.

Open Scope bool_scope.

(* ------------------------------------------------------------------ *)
(** ** Bytes, code points and Python's UTF-8 decoder *)

(** A Python [bytes] value is a list of bytes; a Python [str] is a list
    of code points. *)
Definition pybytes := list byte.
Definition pystr := list N.

Definition bval (b : byte) : N := Byte.to_N b.

(** U+FFFD, the character [errors="replace"] substitutes. *)
Definition REPLACEMENT_CHAR : N := 65533.

Definition is_cont (b : byte) : bool :=
  (128 <=? bval b)%N && (bval b <=? 191)%N.

(** Admissible second byte of a three-byte sequence led by [v1]. *)
Definition second_ok3 (v1 : N) (b2 : byte) : bool :=
  let v2 := bval b2 in
  if (v1 =? 224)%N then (160 <=? v2)%N && (v2 <=? 191)%N
  else if (v1 =? 237)%N then (128 <=? v2)%N && (v2 <=? 159)%N
  else is_cont b2.

(** Admissible second byte of a four-byte sequence led by [v1]. *)
Definition second_ok4 (v1 : N) (b2 : byte) : bool :=
  let v2 := bval b2 in
  if (v1 =? 240)%N then (144 <=? v2)%N && (v2 <=? 191)%N
  else if (v1 =? 244)%N then (128 <=? v2)%N && (v2 <=? 143)%N
  else is_cont b2.

Definition low6 (b : byte) : N := N.land (bval b) 63.

(** One step of CPython's UTF-8 decoder ([Objects/stringlib/codecs.h],
    [utf8_decode] with the [replace] error handler): the lead byte [b1]
    and what follows it give one code point and the number of bytes
    consumed after [b1].  An ill-formed sequence is replaced by one
    U+FFFD covering its maximal valid prefix, also when the data ends
    inside the sequence. *)
Definition dec1 (b1 : byte) (rest : pybytes) : N * nat :=
  let v1 := bval b1 in
  if (v1 <? 128)%N then (v1, 0)
  else if (v1 <? 194)%N then (REPLACEMENT_CHAR, 0)
  else if (v1 <? 224)%N then
    match rest with
    | b2 :: _ =>
        if is_cont b2
        then (N.lor (N.shiftl (N.land v1 31) 6) (low6 b2), 1)
        else (REPLACEMENT_CHAR, 0)
    | [] => (REPLACEMENT_CHAR, 0)
    end
  else if (v1 <? 240)%N then
    match rest with
    | b2 :: r2 =>
        if second_ok3 v1 b2 then
          match r2 with
          | b3 :: _ =>
              if is_cont b3
              then (N.lor (N.shiftl (N.land v1 15) 12)
                     (N.lor (N.shiftl (low6 b2) 6) (low6 b3)), 2)
              else (REPLACEMENT_CHAR, 1)
          | [] => (REPLACEMENT_CHAR, 1)
          end
        else (REPLACEMENT_CHAR, 0)
    | [] => (REPLACEMENT_CHAR, 0)
    end
  else if (v1 <? 245)%N then
    match rest with
    | b2 :: r2 =>
        if second_ok4 v1 b2 then
          match r2 with
          | b3 :: r3 =>
              if is_cont b3 then
                match r3 with
                | b4 :: _ =>
                    if is_cont b4
                    then (N.lor (N.shiftl (N.land v1 7) 18)
                           (N.lor (N.shiftl (low6 b2) 12)
                             (N.lor (N.shiftl (low6 b3) 6) (low6 b4))), 3)
                    else (REPLACEMENT_CHAR, 2)
                | [] => (REPLACEMENT_CHAR, 2)
                end
              else (REPLACEMENT_CHAR, 1)
          | [] => (REPLACEMENT_CHAR, 1)
          end
        else (REPLACEMENT_CHAR, 0)
    | [] => (REPLACEMENT_CHAR, 0)
    end
  else (REPLACEMENT_CHAR, 0).

(** The decoding loop; [fuel] bounds the number of steps and is the
    length of the input, which each step shortens. *)
Fixpoint decode_loop (fuel : nat) (s : pybytes) : pystr :=
  match fuel, s with
  | S fuel', b1 :: rest =>
      let (c, k) := dec1 b1 rest in
      c :: decode_loop fuel' (skipn k rest)
  | _, _ => []
  end.

(** [s.decode("utf-8", errors="replace")] *)
Definition decode_replace (s : pybytes) : pystr :=
  decode_loop (List.length s) s.

(** Length of a [str] once encoded in UTF-8 ([len(t.encode())]). *)
Definition utf8_len_char (c : N) : nat :=
  if (c <? 128)%N then 1
  else if (c <? 2048)%N then 2
  else if (c <? 65536)%N then 3
  else 4.

Definition utf8_len (t : pystr) : nat :=
  fold_right (fun c n => utf8_len_char c + n) 0 t.

(* ------------------------------------------------------------------ *)
(** ** [_truncate] (executor.py, lines 67-72) *)

(** [b"\n...[truncated]"] *)
Definition TRUNCATION_SUFFIX : pybytes :=
  [x0a; x2e; x2e; x2e; x5b; x74; x72; x75; x6e; x63; x61; x74; x65; x64; x5d].

(** [max_bytes] is a Python [int]; [s[: max(0, max_bytes - 32)]] keeps
    that many leading bytes. *)
Definition _truncate (s : pybytes) (max_bytes : Z) : pystr :=
  if (Z.of_nat (List.length s) <=? max_bytes)%Z then decode_replace s
  else
    let head := firstn (Z.to_nat (Z.max 0 (max_bytes - 32))) s in
    decode_replace (head ++ TRUNCATION_SUFFIX).

(** The marker as text. *)
Definition TRUNCATION_MARKER : pystr := map bval TRUNCATION_SUFFIX.

(** The reference sanitiser as the specification words it: over the cap,
    keep the first [cap - len(marker)] bytes and append the marker. *)
Definition truncate_spec (s : pybytes) (cap : Z) : pystr :=
  if (Z.of_nat (List.length s) <=? cap)%Z then decode_replace s
  else
    let head := firstn (Z.to_nat (cap - Z.of_nat (List.length TRUNCATION_SUFFIX))) s in
    decode_replace (head ++ TRUNCATION_SUFFIX).

Definition is_ascii_byte (b : byte) : Prop := (bval b < 128)%N.

(* ------------------------------------------------------------------ *)
(** ** Python errors and an error monad *)

Inductive pyexc :=
| RuntimeError (msg : string)
| ValueError (msg : string)
| OSError (msg : string)
| OverflowError (msg : string)
| ProcessLookupError.

Inductive res (A : Type) :=
| Ok (a : A)
| Err (e : pyexc).
Arguments Ok {A} a.
Arguments Err {A} e.

Definition bind {A B} (m : res A) (k : A -> res B) : res B :=
  match m with Ok a => k a | Err e => Err e end.

Notation "'let*' x := m 'in' k" := (bind m (fun x => k))
  (at level 200, x name, m at level 100, k at level 200).

(* ------------------------------------------------------------------ *)
(** ** The host: process environment and filesystem *)

Record fnode := {
  f_bytes : pybytes;
  f_readable : bool;
  f_exec : bool
}.

Inductive node :=
| NFile (f : fnode)
| NDir.

(** [h_fs] maps the components of an absolute path to the node there;
    [h_home] is what [Path.home()] gives. *)
Record host := {
  h_env : list (string * string);
  h_fs : list (list string * node);
  h_cwd : string;
  h_home : string
}.

Fixpoint assoc {K V} (eqb : K -> K -> bool) (k : K) (l : list (K * V)) : option V :=
  match l with
  | [] => None
  | (k', v) :: l' => if eqb k k' then Some v else assoc eqb k l'
  end.

(** [os.environ.get(key)] *)
Definition environ_get (h : host) (key : string) : option string :=
  assoc String.eqb key (h_env h).

Definition SLASH : ascii := "/"%char.

(** [p.split(sep)] on one character. *)
Fixpoint split_on (sep : ascii) (s : string) : list string :=
  match s with
  | EmptyString => [EmptyString]
  | String c s' =>
      match split_on sep s' with
      | [] => [] (* unreachable: [split_on] is never empty *)
      | w :: ws => if Ascii.eqb c sep then EmptyString :: w :: ws
                   else String c w :: ws
      end
  end.

Fixpoint contains_char (c : ascii) (s : string) : bool :=
  match s with
  | EmptyString => false
  | String c' s' => Ascii.eqb c c' || contains_char c s'
  end.

(** [posixpath.isabs] *)
Definition isabs (p : string) : bool := String.prefix "/"%string p.

(** [posixpath.join(a, p)] for two parts. *)
Definition path_join (a p : string) : string :=
  if isabs p then p
  else if (a =? EmptyString)%string then p
  else if match String.get (String.length a - 1) a with
          | Some c => Ascii.eqb c SLASH | None => false end
  then (a ++ p)%string
  else (a ++ "/" ++ p)%string.

(** The loop of [posixpath.normpath] over the components; [stack] is
    [new_comps] reversed. *)
Fixpoint norm_comps (initial : bool) (comps : list string) (stack : list string)
  : list string :=
  match comps with
  | [] => stack
  | comp :: comps' =>
      if (comp =? EmptyString)%string || (comp =? ".")%string then norm_comps initial comps' stack
      else if negb (comp =? "..")%string
              || (negb initial && match stack with [] => true | _ => false end)
              || match stack with top :: _ => (top =? "..")%string | [] => false end
      then norm_comps initial comps' (comp :: stack)
      else match stack with
           | [] => norm_comps initial comps' stack
           | _ :: stack' => norm_comps initial comps' stack'
           end
  end.

(** [posixpath.normpath] *)
Definition normpath (p : string) : string :=
  if (p =? EmptyString)%string then "."%string
  else
    let slashes :=
      if String.prefix "//" p && negb (String.prefix "///" p) then "//"%string
      else if String.prefix "/" p then "/"%string else EmptyString in
    let body := String.concat "/"%string (rev (norm_comps (isabs p) (split_on SLASH p) [])) in
    let r := (slashes ++ body)%string in
    if (r =? EmptyString)%string then "."%string else r.

(** [os.path.abspath] *)
Definition abspath (h : host) (p : string) : string :=
  if isabs p then normpath p else normpath (path_join (h_cwd h) p).

(** The components of the absolute path the OS resolves [p] to. *)
Definition canon (h : host) (p : string) : list string :=
  filter (fun c => negb (c =? EmptyString)%string) (split_on SLASH (abspath h p)).

Definition list_string_eqb (a b : list string) : bool :=
  (List.length a =? List.length b) && forallb (fun '(x, y) => (x =? y)%string) (combine a b).

Definition lookup (h : host) (p : string) : option node :=
  assoc list_string_eqb (canon h p) (h_fs h).

(** [os.path.exists], [os.path.isdir], [os.path.isfile] *)
Definition path_exists (h : host) (p : string) : bool :=
  match lookup h p with Some _ => true | None => false end.
Definition isdir (h : host) (p : string) : bool :=
  match lookup h p with Some NDir => true | _ => false end.
Definition isfile (h : host) (p : string) : bool :=
  match lookup h p with Some (NFile _) => true | _ => false end.

(** [os.access(p, os.X_OK)] *)
Definition access_x (h : host) (p : string) : bool :=
  match lookup h p with Some (NFile f) => f_exec f | Some NDir => true | None => false end.

(** [open(p, "rb").read(4)]; [None] when [open] raises [OSError]. *)
Definition read4 (h : host) (p : string) : option pybytes :=
  match lookup h p with
  | Some (NFile f) => if f_readable f then Some (firstn 4 (f_bytes f)) else None
  | _ => None
  end.

(* ------------------------------------------------------------------ *)
(** ** [shutil.which] and [_locate_runtime] (lines 94-102) *)

(** [shutil._access_check(fn, os.F_OK | os.X_OK)] *)
Definition access_check (h : host) (fn : string) : bool :=
  path_exists h fn && access_x h fn && negb (isdir h fn).

(** The loop of [shutil.which] over the directories of [PATH], skipping
    a directory already seen. *)
Fixpoint which_loop (h : host) (cmd : string) (dirs seen : list string) : option string :=
  match dirs with
  | [] => None
  | d :: dirs' =>
      if existsb (String.eqb d) seen then which_loop h cmd dirs' seen
      else
        let name := path_join d cmd in
        if access_check h name then Some name
        else which_loop h cmd dirs' (d :: seen)
  end.

(** [shutil.which(cmd)] for a [cmd] without a directory part; without
    [PATH] it falls back on [os.confstr("CS_PATH")]. *)
Definition which (h : host) (cmd : string) : option string :=
  let path := match environ_get h "PATH" with
              | Some p => p | None => "/bin:/usr/bin"%string end in
  if (path =? EmptyString)%string then None
  else which_loop h cmd (split_on ":"%char path) [].

Definition _locate_runtime (h : host) (executable : option string) : option string :=
  match executable with
  | None => None
  | Some e =>
      if (e =? EmptyString)%string then None
      else if isabs e || contains_char SLASH e then
        let candidate := abspath h e in
        if isfile h candidate && access_x h candidate then Some candidate else None
      else which h e
  end.

(* ------------------------------------------------------------------ *)
(** ** [shlex.split] (POSIX mode, no comments) *)

Inductive lexmode :=
| LWs
| LWord
| LQuote (q : ascii)
| LEsc (back : option ascii).

Definition is_ws (c : ascii) : bool :=
  Ascii.eqb c " " || Ascii.eqb c (ascii_of_nat 9) || Ascii.eqb c (ascii_of_nat 13)
  || Ascii.eqb c (ascii_of_nat 10).
Definition DQUOTE : ascii := ascii_of_nat 34.
Definition BACKSLASH : ascii := ascii_of_nat 92.
Definition is_quote (c : ascii) : bool := Ascii.eqb c "'" || Ascii.eqb c DQUOTE.

Definition emit (tok : list ascii) (acc : list string) : list string :=
  string_of_list_ascii (rev tok) :: acc.

(** The [read_token] state machine of [shlex.shlex] with [posix=True] and
    [whitespace_split=True]; [tok] is the current token reversed and
    [acc] the tokens read so far, reversed. *)
Fixpoint shlex_go (cs : list ascii) (m : lexmode) (tok : list ascii)
    (acc : list string) : res (list string) :=
  match m, cs with
  | LWs, [] => Ok (rev acc)
  | LWs, c :: cs' =>
      if is_ws c then shlex_go cs' LWs [] acc
      else if Ascii.eqb c BACKSLASH then shlex_go cs' (LEsc None) [] acc
      else if is_quote c then shlex_go cs' (LQuote c) [] acc
      else shlex_go cs' LWord [c] acc
  | LWord, [] => Ok (rev (emit tok acc))
  | LWord, c :: cs' =>
      if is_ws c then shlex_go cs' LWs [] (emit tok acc)
      else if is_quote c then shlex_go cs' (LQuote c) tok acc
      else if Ascii.eqb c BACKSLASH then shlex_go cs' (LEsc None) tok acc
      else shlex_go cs' LWord (c :: tok) acc
  | LQuote _, [] => Err (ValueError "No closing quotation")
  | LQuote q, c :: cs' =>
      if Ascii.eqb c q then shlex_go cs' LWord tok acc
      else if Ascii.eqb q DQUOTE && Ascii.eqb c BACKSLASH
      then shlex_go cs' (LEsc (Some q)) tok acc
      else shlex_go cs' (LQuote q) (c :: tok) acc
  | LEsc _, [] => Err (ValueError "No escaped character")
  | LEsc None, c :: cs' => shlex_go cs' LWord (c :: tok) acc
  | LEsc (Some q), c :: cs' =>
      if negb (Ascii.eqb c BACKSLASH) && negb (Ascii.eqb c q)
      then shlex_go cs' (LQuote q) (c :: BACKSLASH :: tok) acc
      else shlex_go cs' (LQuote q) (c :: tok) acc
  end.

Definition shlex_split (s : string) : res (list string) :=
  shlex_go (list_ascii_of_string s) LWs [] [].

(* ------------------------------------------------------------------ *)
(** ** [_resolve_wasm_runtime] (lines 105-151) *)

Definition default_runtime_paths (h : host) : list string :=
  [ "/opt/homebrew/bin/wasmtime"; "/usr/local/bin/wasmtime";
    h_home h ++ "/.wasmtime/bin/wasmtime"; h_home h ++ "/.cargo/bin/wasmtime" ]%string.

(** The [for default_path in (...)] loop with its [break]. *)
Fixpoint first_default (h : host) (ps : list string) : option string :=
  match ps with
  | [] => None
  | p :: ps' => if isfile h p && access_x h p then Some p else first_default h ps'
  end.

(** Lines 106-118: the runtime binary. *)
Definition resolve_runtime_path (h : host) : option string :=
  let runtime_path := _locate_runtime h (environ_get h "PYTHON_WASM_RUNTIME") in
  let runtime_path :=
    match runtime_path with
    | Some _ => runtime_path
    | None => _locate_runtime h (Some "wasmtime"%string)
    end in
  match runtime_path with
  | Some _ => runtime_path
  | None => first_default h (default_runtime_paths h)
  end.

(** [b"\0asm"] *)
Definition WASM_MAGIC : pybytes := [x00; x61; x73; x6d].

Definition bytes_eqb (a b : pybytes) : bool :=
  (List.length a =? List.length b)
  && forallb (fun '(x, y) => Byte.eqb x y) (combine a b).

Definition MSG_NO_RUNTIME : string :=
  "WASM runtime binary not found. Set PYTHON_WASM_RUNTIME to the CLI (e.g. wasmtime).".
Definition MSG_NO_PATH : string :=
  "PYTHON_WASM_PATH environment variable must point to python.wasm".
Definition MSG_NOT_FOUND (m : string) : string :=
  "WASM module not found at PYTHON_WASM_PATH: " ++ m.
Definition MSG_IS_DIR (m : string) : string :=
  "PYTHON_WASM_PATH must point to a WebAssembly binary, but a directory was provided: " ++ m.
Definition MSG_UNREADABLE : string :=
  "Unable to read the WASM module referenced by PYTHON_WASM_PATH.".
Definition MSG_BAD_MAGIC : string :=
  "PYTHON_WASM_PATH must reference a valid WebAssembly module (magic '\0asm'). Double-check that it points to your `python.wasm`, not the WASM runtime binary.".

Definition _resolve_wasm_runtime (h : host) : res (string * string * list string) :=
  match resolve_runtime_path h with
  | None => Err (RuntimeError MSG_NO_RUNTIME)
  | Some runtime_path =>
      match environ_get h "PYTHON_WASM_PATH" with
      | None => Err (RuntimeError MSG_NO_PATH)
      | Some wasm_module =>
          if (wasm_module =? EmptyString)%string then Err (RuntimeError MSG_NO_PATH)
          else if negb (path_exists h wasm_module)
          then Err (RuntimeError (MSG_NOT_FOUND wasm_module))
          else if isdir h wasm_module
          then Err (RuntimeError (MSG_IS_DIR wasm_module))
          else
            match read4 h wasm_module with
            | None => Err (RuntimeError MSG_UNREADABLE)
            | Some magic =>
                if negb (bytes_eqb magic WASM_MAGIC)
                then Err (RuntimeError MSG_BAD_MAGIC)
                else
                  let args_src := match environ_get h "PYTHON_WASM_RUNTIME_ARGS" with
                                  | Some a => a | None => EmptyString end in
                  let* extra_args := shlex_split args_src in
                  Ok (runtime_path, abspath h wasm_module, extra_args)
            end
      end
  end.

(** The first four bytes of the file at [p], readable or not. *)
Definition file_head4 (h : host) (p : string) : option pybytes :=
  match lookup h p with Some (NFile f) => Some (firstn 4 (f_bytes f)) | _ => None end.

(** The module checks of lines 124-147, as one test: the path is unset
    or empty, absent, a directory, unreadable, or has the wrong magic. *)
Definition module_invalid (h : host) : bool :=
  match environ_get h "PYTHON_WASM_PATH" with
  | None => true
  | Some m =>
      (m =? EmptyString)%string || negb (path_exists h m) || isdir h m
      || match read4 h m with
         | None => true
         | Some magic => negb (bytes_eqb magic WASM_MAGIC)
         end
  end.

Definition runtime_args_src (h : host) : string :=
  match environ_get h "PYTHON_WASM_RUNTIME_ARGS" with Some a => a | None => EmptyString end.

(** The lookup order as the specification words it: each candidate in
    turn, the first that matches wins. *)
Fixpoint first_match {A} (l : list (option A)) : option A :=
  match l with
  | [] => None
  | Some a :: _ => Some a
  | None :: l' => first_match l'
  end.

Definition runtime_candidates (h : host) : list (option string) :=
  [ _locate_runtime h (environ_get h "PYTHON_WASM_RUNTIME");
    _locate_runtime h (Some "wasmtime"%string) ]
  ++ map (fun p => if isfile h p && access_x h p then Some p else None)
         (default_runtime_paths h).

(** Concrete hosts. *)
Definition exe_file : node := NFile {| f_bytes := [x7f; x45; x4c; x46]; f_readable := true; f_exec := true |}.
Definition wasm_file (readable : bool) : node :=
  NFile {| f_bytes := WASM_MAGIC ++ [x01; x00; x00; x00]; f_readable := readable; f_exec := false |}.

Definition demo_fs (readable : bool) : list (list string * node) :=
  [ ([], NDir); (["usr"], NDir); (["usr"; "bin"], NDir);
    (["usr"; "bin"; "wasmtime"], exe_file);
    (["opt"], NDir); (["opt"; "py"], NDir);
    (["opt"; "py"; "python.wasm"], wasm_file readable);
    (["opt"; "py"; "lib"], NDir);
    (["opt"; "py"; "lib"; "python3.12"], NDir);
    (["opt"; "py"; "lib"; "python3.12"; "lib-dynload"], NDir);
    (["opt"; "py"; "lib"; "python312.zip"], NFile {| f_bytes := []; f_readable := true; f_exec := false |}) ]%string.

Definition demo_host (readable : bool) (args : string) : host :=
  {| h_env := [ ("PATH", "/usr/bin"); ("PYTHON_WASM_PATH", "/opt/py/python.wasm");
                ("PYTHON_WASM_RUNTIME_ARGS", args) ]%string;
     h_fs := demo_fs readable;
     h_cwd := "/srv"%string;
     h_home := "/home/svc"%string |}.

(* ------------------------------------------------------------------ *)
(** ** String helpers: [str.startswith], [str.endswith], slicing *)

Definition startswith (s prefix : string) : bool := String.prefix prefix s.

Definition endswith (s suffix : string) : bool :=
  let n := String.length s in
  let m := String.length suffix in
  (m <=? n) && (String.substring (n - m) m s =? suffix)%string.

(** [s[k:]] *)
Definition drop_chars (k : nat) (s : string) : string :=
  String.substring k (String.length s - k) s.

(* ------------------------------------------------------------------ *)
(** ** [_discover_stdlib_paths] (lines 154-187) *)

(** The names in directory [d] ([Path.iterdir], in listing order). *)
Definition iterdir_names (h : host) (d : string) : list string :=
  let dc := canon h d in
  flat_map (fun '(k, _) =>
              match rev k with
              | n :: rk => if list_string_eqb (rev rk) dc then [n] else []
              | [] => []
              end) (h_fs h).

Fixpoint insert_sorted (x : string) (l : list string) : list string :=
  match l with
  | [] => [x]
  | y :: l' => if String.leb x y then x :: l else y :: insert_sorted x l'
  end.

(** [sorted(...)] of sibling paths orders them by name. *)
Definition sort_names (l : list string) : list string :=
  fold_right insert_sorted [] l.

Definition is_digit (c : ascii) : bool :=
  (48 <=? nat_of_ascii c) && (nat_of_ascii c <=? 57).

Fixpoint span_digits (cs : list ascii) : list ascii * list ascii :=
  match cs with
  | c :: cs' => if is_digit c then let (d, r) := span_digits cs' in (c :: d, r) else ([], cs)
  | [] => ([], [])
  end.

(** [re.compile(r"python\d+(?:\.\d+)?").fullmatch(name)] on ASCII names. *)
Definition version_fullmatch (name : string) : bool :=
  startswith name "python" &&
  match span_digits (list_ascii_of_string (drop_chars 6 name)) with
  | ([], _) => false
  | (_, []) => true
  | (_, c :: r) =>
      Ascii.eqb c "." &&
      match span_digits r with
      | ([], _) => false
      | (_, []) => true
      | _ => false
      end
  end.

(** The glob pattern ["python*.zip"] matched against one name. *)
Definition zip_glob_match (name : string) : bool :=
  startswith name "python" && endswith name ".zip" && (10 <=? String.length name).

(** [_add]: the state is [(guest_paths, seen)]. *)
Definition _add (st : list string * list string) (path : string) : list string * list string :=
  let (guest_paths, seen) := st in
  if existsb (String.eqb path) seen then st else (guest_paths ++ [path], path :: seen).

Definition _discover_stdlib_paths (h : host) (python_root guest_prefix : string) : list string :=
  let lib_root := path_join python_root "lib" in
  if negb (isdir h lib_root) then []
  else
    let version_dir :=
      find (fun name => isdir h (path_join lib_root name) && version_fullmatch name)
           (sort_names (iterdir_names h lib_root)) in
    match version_dir with
    | None => []
    | Some vname =>
        let guest_base := (guest_prefix ++ "/lib/" ++ vname)%string in
        let st := _add ([], []) guest_base in
        let st := fold_left (fun st subdir =>
                    if isdir h (path_join (path_join lib_root vname) subdir)
                    then _add st (guest_base ++ "/" ++ subdir)%string else st)
                  ["lib-dynload"; "site-packages"]%string st in
        let st := fold_left (fun st zname => _add st (guest_prefix ++ "/lib/" ++ zname)%string)
                  (sort_names (filter zip_glob_match (iterdir_names h lib_root))) st in
        fst st
    end.

(** The loop of lines 159-164: the first name, in sorted order, that is a
    directory matching the version pattern. *)
Definition version_dir (h : host) (lib_root : string) : option string :=
  find (fun name => isdir h (path_join lib_root name) && version_fullmatch name)
       (sort_names (iterdir_names h lib_root)).

(** The discovery as the specification words it: the candidates in
    order, keeping the first occurrence of each. *)
Fixpoint dedup_acc (seen : list string) (l : list string) : list string :=
  match l with
  | [] => []
  | x :: l' =>
      if existsb (String.eqb x) seen then dedup_acc seen l' else x :: dedup_acc (x :: seen) l'
  end.

Definition discovery_candidates (h : host) (python_root guest_prefix vname : string)
  : list string :=
  let lib_root := path_join python_root "lib" in
  let guest_base := (guest_prefix ++ "/lib/" ++ vname)%string in
  guest_base
  :: map (fun subdir => guest_base ++ "/" ++ subdir)%string
         (filter (fun subdir => isdir h (path_join (path_join lib_root vname) subdir))
                 ["lib-dynload"; "site-packages"]%string)
  ++ map (fun zname => guest_prefix ++ "/lib/" ++ zname)%string
         (sort_names (filter zip_glob_match (iterdir_names h lib_root))).

(* ------------------------------------------------------------------ *)
(** ** Runtime argument assembly (lines 210-226, 249-283) *)

Definition guest_prefix : string := "/python".
(** [guest_prefix.lstrip('/')] *)
Definition guest_name : string := "python".
Definition target_suffix : string := "::" ++ guest_name.
Definition host_mapping (python_root : string) : string := python_root ++ "::" ++ guest_name.

(** [_has_mapping]; the recursion walks [enumerate(args)] with [rest]
    standing for [args[idx + 1:]]. *)
Fixpoint _has_mapping (args : list string) : bool :=
  match args with
  | [] => false
  | value :: rest =>
      if (value =? "--dir")%string then
        match rest with
        | next :: _ => if endswith next target_suffix then true else _has_mapping rest
        | [] => _has_mapping rest
        end
      else if startswith value "--dir=" && endswith (drop_chars 6 value) target_suffix
      then true
      else _has_mapping rest
  end.

(** Lines 225-226. *)
Definition add_dir_mapping (python_root : string) (args : list string) : list string :=
  if _has_mapping args then args else args ++ ["--dir"; host_mapping python_root]%string.

(** The scan of [_ensure_env_arg] for an injection starting with [prefix]. *)
Fixpoint env_arg_present (prefix : string) (args : list string) : bool :=
  match args with
  | [] => false
  | existing :: rest =>
      if (existing =? "--env")%string then
        match rest with
        | next :: _ => if startswith next prefix then true else env_arg_present prefix rest
        | [] => env_arg_present prefix rest
        end
      else if startswith existing "--env=" && startswith (drop_chars 6 existing) prefix
      then true
      else env_arg_present prefix rest
  end.

Definition _ensure_env_arg (args : list string) (key value : string) : list string :=
  if env_arg_present (key ++ "=") args then args
  else args ++ ["--env"; key ++ "=" ++ value]%string.

(** Lines 274-275. *)
Definition add_env_args (env_updates : list (string * string)) (args : list string) : list string :=
  fold_left (fun a kv => _ensure_env_arg a (fst kv) (snd kv)) env_updates args.

(** Lines 252-260, in the insertion order of the dict. *)
Definition make_env_updates (encoded_code stdlib_path_str : string) : list (string * string) :=
  [ ("PYTHONUNBUFFERED", "1"); ("PY_CODE_B64", encoded_code);
    ("PYTHON_WASM_PREFIX", guest_prefix); ("PYTHON_WASM_STDLIB_PATHS", stdlib_path_str);
    ("PYTHONHOME", guest_prefix) ]%string
  ++ (if (stdlib_path_str =? EmptyString)%string then []
      else [("PYTHONPATH"%string, stdlib_path_str)]).

(** [dict.update]: existing keys keep their place, new keys go last. *)
Definition dict_update (d : list (string * string)) (u : list (string * string))
  : list (string * string) :=
  fold_left (fun d '(k, v) =>
               if existsb (fun '(k', _) => (k =? k')%string) d
               then map (fun '(k', v') => if (k =? k')%string then (k', v) else (k', v')) d
               else d ++ [(k, v)]) u d.

(* ------------------------------------------------------------------ *)
(** ** The guest program arguments (lines 75-91, 234-247) *)

Definition NL : string := String (ascii_of_nat 10) EmptyString.

Definition _WASM_BOOTSTRAP_SCRIPT : string :=
  String.concat NL [
    "import base64, os as _os, sys as _sys";
    "_prefix = _os.environ.get('PYTHON_WASM_PREFIX')";
    "if _prefix:";
    "    _sys.prefix = _sys.exec_prefix = _prefix";
    "_paths = _os.environ.get('PYTHON_WASM_STDLIB_PATHS')";
    "if _paths:";
    "    _entries = [p for p in _paths.split(':') if p]";
    "    for _entry in reversed(_entries):";
    "        if _entry not in _sys.path:";
    "            _sys.path.insert(0, _entry)";
    "_code = base64.b64decode(_os.environ['PY_CODE_B64']).decode('utf-8')";
    "_globals = {'__name__': '__main__'}";
    "exec(compile(_code, '<user_code>', 'exec'), _globals)" ]%string.

(** Lines 235-242. *)
Definition use_isolated (h : host) : bool :=
  match environ_get h "PYTHON_WASM_FORCE_ISOLATED" with
  | Some force_isolated => (force_isolated =? "1")%string
  | None =>
      match environ_get h "PYTHON_WASM_DISABLE_ISOLATED" with
      | Some disable_isolated => negb (disable_isolated =? "1")%string
      | None => false
      end
  end.

Definition python_args (h : host) : list string :=
  (if use_isolated h then ["-I"%string] else []) ++ ["-c"%string; _WASM_BOOTSTRAP_SCRIPT].

(* ------------------------------------------------------------------ *)
(** ** [base64.b64encode(code.encode("utf-8")).decode("ascii")] *)

(** The characters of a Rocq [string] stand for code points 0-255. *)
Definition utf8_encode_char (c : ascii) : list N :=
  let n := N.of_nat (nat_of_ascii c) in
  if (n <? 128)%N then [n]
  else [N.lor 192 (N.shiftr n 6); N.lor 128 (N.land n 63)].

(** [str.encode("utf-8")] on one code point, as [Objects/stringlib/codecs.h]
    ([utf8_encoder]) writes it; [None] is the [UnicodeEncodeError] the
    [strict] handler raises for a surrogate. *)
Definition utf8_encode_cp (c : N) : option (list N) :=
  if (c <? 128)%N then Some [c]
  else if (c <? 2048)%N then Some [N.lor 192 (N.shiftr c 6); N.lor 128 (N.land c 63)]
  else if (55296 <=? c)%N && (c <? 57344)%N then None
  else if (c <? 65536)%N then
    Some [N.lor 224 (N.shiftr c 12); N.lor 128 (N.land (N.shiftr c 6) 63);
          N.lor 128 (N.land c 63)]
  else
    Some [N.lor 240 (N.shiftr c 18); N.lor 128 (N.land (N.shiftr c 12) 63);
          N.lor 128 (N.land (N.shiftr c 6) 63); N.lor 128 (N.land c 63)].

(** [t.encode("utf-8")] for a [str] [t]. *)
Fixpoint utf8_encode (t : pystr) : option (list N) :=
  match t with
  | [] => Some []
  | c :: t' =>
      match utf8_encode_cp c, utf8_encode t' with
      | Some b, Some bs => Some (b ++ bs)
      | _, _ => None
      end
  end.

Definition B64_ALPHABET : string :=
  "ABCDEFGHIJKLMNOPQRSTUVWXYZabcdefghijklmnopqrstuvwxyz0123456789+/".

Definition b64_char (n : N) : ascii :=
  match String.get (N.to_nat n) B64_ALPHABET with Some c => c | None => "="%char end.

Fixpoint b64_encode (bs : list N) : list ascii :=
  match bs with
  | a :: b :: c :: rest =>
      b64_char (N.shiftr a 2)
      :: b64_char (N.lor (N.shiftl (N.land a 3) 4) (N.shiftr b 4))
      :: b64_char (N.lor (N.shiftl (N.land b 15) 2) (N.shiftr c 6))
      :: b64_char (N.land c 63) :: b64_encode rest
  | [a; b] =>
      [b64_char (N.shiftr a 2); b64_char (N.lor (N.shiftl (N.land a 3) 4) (N.shiftr b 4));
       b64_char (N.shiftl (N.land b 15) 2); "="%char]
  | [a] => [b64_char (N.shiftr a 2); b64_char (N.shiftl (N.land a 3) 4); "="%char; "="%char]
  | [] => []
  end.

Definition encode_code (code : string) : string :=
  string_of_list_ascii (b64_encode (flat_map utf8_encode_char (list_ascii_of_string code))).

(* ------------------------------------------------------------------ *)
(** ** [execute_python]: the invocation (lines 207-283) *)

(** [Path(p).resolve().parent] for an absolute [p] without symlinks. *)
Definition resolved_parent (h : host) (p : string) : string :=
  ("/" ++ String.concat "/" (removelast (canon h p)))%string.

Record invocation := {
  inv_cmd : list string;
  inv_env : list (string * string);
  inv_runtime_args : list string;
  inv_stdlib_paths : list string
}.

Definition build_invocation (h : host) (code : string) : res invocation :=
  match _resolve_wasm_runtime h with
  | Err e => Err e
  | Ok (runtime_path, wasm_module, runtime_args) =>
      let python_root := resolved_parent h wasm_module in
      let runtime_args := add_dir_mapping python_root runtime_args in
      let stdlib_paths := _discover_stdlib_paths h python_root guest_prefix in
      let encoded_code := encode_code code in
      let pargs := python_args h in
      let stdlib_path_str := String.concat ":" stdlib_paths in
      let env_updates := make_env_updates encoded_code stdlib_path_str in
      let env := dict_update (h_env h) env_updates in
      let runtime_args := add_env_args env_updates runtime_args in
      Ok {| inv_cmd := [runtime_path; "run"%string] ++ runtime_args ++ [wasm_module] ++ pargs;
            inv_env := env;
            inv_runtime_args := runtime_args;
            inv_stdlib_paths := stdlib_paths |}
  end.

(* ------------------------------------------------------------------ *)
(** ** Processes and [execute_python]'s supervision (lines 285-327) *)

Record proc := {
  p_pid : Z;
  p_pgid : Z;
  p_alive : bool;
  p_status : option Z     (* the wait status once the process is reaped *)
}.

Record world := {
  w_posix : bool;          (* [os.name == "posix"] *)
  w_procs : list proc
}.

Definition SIGKILL : Z := 9.

Definition kill_proc (p : proc) : proc :=
  {| p_pid := p_pid p; p_pgid := p_pgid p; p_alive := false;
     p_status := match p_status p with Some s => Some s | None => Some (- SIGKILL)%Z end |}.

Definition in_group (pgid : Z) (p : proc) : bool := (p_pgid p =? pgid)%Z && p_alive p.

(** [os.killpg(pgid, SIGKILL)]: signals every live member, or raises
    [ProcessLookupError] when the group has none. *)
Definition killpg (ps : list proc) (pgid : Z) : res (list proc) :=
  if existsb (in_group pgid) ps
  then Ok (map (fun p => if in_group pgid p then kill_proc p else p) ps)
  else Err ProcessLookupError.

(** [proc.kill()]: [Popen.send_signal] polls first and signals only a
    child that has not terminated. *)
Definition popen_kill (ps : list proc) (pid : Z) : list proc :=
  map (fun p => if (p_pid p =? pid)%Z && p_alive p then kill_proc p else p) ps.

Definition find_proc (ps : list proc) (pid : Z) : option proc :=
  find (fun p => (p_pid p =? pid)%Z) ps.

(** The wait status the process table holds for [pid]. *)
Definition table_status (ps : list proc) (pid : Z) : option Z :=
  match find_proc ps pid with Some p => p_status p | None => None end.

(** [Popen.wait] reaping [pid] with status [rc]. *)
Definition reap (ps : list proc) (pid : Z) (rc : Z) : list proc :=
  map (fun p => if (p_pid p =? pid)%Z
                then {| p_pid := p_pid p; p_pgid := p_pgid p; p_alive := false;
                        p_status := Some rc |}
                else p) ps.

(** The first [proc.communicate(input, timeout)]: either the child exited
    with status [rc] and its pipes were drained in time ([Finished]), or
    [TimeoutExpired] was raised. *)
Inductive comm_outcome :=
| Finished (out err : pybytes) (rc : Z)
| Expired.

Record child_behaviour := {
  ch_run : list proc -> list proc * comm_outcome;
  ch_drain : pybytes * pybytes
}.

Record ExecutionResult := {
  stdout : pystr;
  stderr : pystr;
  exit_code : option Z;
  timed_out : bool;
  duration_ms : Z
}.

(** [subprocess.Popen(cmd, ...)]: the binary must still be an executable
    file; the child gets the next pid and, through [setsid] in the
    pre-exec hook on POSIX, a process group of its own. *)
Definition popen (h : host) (w : world) (cmd : list string) : res (world * Z) :=
  match cmd with
  | exe :: _ =>
      if isfile h exe && access_x h exe then
        let pid := (1 + fold_right (fun p m => Z.max (p_pid p) m) 1 (w_procs w))%Z in
        let pgid := if w_posix w then pid else 1%Z in
        Ok ({| w_posix := w_posix w;
               w_procs := w_procs w ++ [{| p_pid := pid; p_pgid := pgid;
                                          p_alive := true; p_status := None |}] |}, pid)
      else Err (OSError "Permission denied or no such file")
  | [] => Err (OSError "empty command")
  end.

(** Lines 302-314, once the child [pid] runs; gives the new process
    table, the raw output, [timed_out] and [proc.returncode]. *)
Definition supervise (posix : bool) (ps : list proc) (pid : Z) (ch : child_behaviour)
  : list proc * (pybytes * pybytes) * bool * option Z :=
  let (ps1, outcome) := ch_run ch ps in
  match outcome with
  | Finished out err rc => (reap ps1 pid rc, (out, err), false, Some rc)
  | Expired =>
      let ps2 :=
        if posix then
          match killpg ps1 pid with Ok ps' => ps' | Err _ => ps1 end  (* except: pass *)
        else ps1 in
      let ps3 := popen_kill ps2 pid in
      (ps3, ch_drain ch, true, table_status ps3 pid)
  end.

Definition execute_python (h : host) (w : world) (code : string) (timeout_ms : Z)
    (max_output_bytes : Z) (ch : child_behaviour) (elapsed_ms : Z)
  : res (world * ExecutionResult) :=
  match build_invocation h code with
  | Err e => Err e
  | Ok inv =>
      match popen h w (inv_cmd inv) with
      | Err e => Err e
      | Ok (w1, pid) =>
          let '(ps, (out, err), timed_out, proc_returncode) :=
            supervise (w_posix w1) (w_procs w1) pid ch in
          let exit_code := if timed_out then None else proc_returncode in
          Ok ({| w_posix := w_posix w1; w_procs := ps |},
              {| stdout := _truncate out max_output_bytes;
                 stderr := _truncate err max_output_bytes;
                 exit_code := exit_code;
                 timed_out := timed_out;
                 duration_ms := elapsed_ms |})
      end
  end.


(* ------------------------------------------------------------------ *)
(** ** Counting mappings and injections *)

(** Does position [v] (followed by [rest]) hold a guest-prefix mapping,
    as [_has_mapping] reads it? *)
Definition dir_here (v : string) (rest : list string) : nat :=
  if (v =? "--dir")%string then
    match rest with
    | next :: _ => if endswith next target_suffix then 1 else 0
    | [] => 0
    end
  else if startswith v "--dir=" && endswith (drop_chars 6 v) target_suffix then 1 else 0.

Fixpoint count_dir (args : list string) : nat :=
  match args with
  | [] => 0
  | v :: rest => dir_here v rest + count_dir rest
  end.

(** Does position [v] hold an injection for [prefix], as
    [_ensure_env_arg] reads it? *)
Definition env_here (prefix v : string) (rest : list string) : nat :=
  if (v =? "--env")%string then
    match rest with
    | next :: _ => if startswith next prefix then 1 else 0
    | [] => 0
    end
  else if startswith v "--env=" && startswith (drop_chars 6 v) prefix then 1 else 0.

Fixpoint count_env (prefix : string) (args : list string) : nat :=
  match args with
  | [] => 0
  | v :: rest => env_here prefix v rest + count_env prefix rest
  end.

Definition required_keys (stdlib_path_str : string) : list string :=
  map fst (make_env_updates EmptyString stdlib_path_str).

(** The assembled runtime arguments, from the caller's [args]. *)
Definition assemble (python_root encoded_code stdlib_path_str : string) (args : list string)
  : list string :=
  add_env_args (make_env_updates encoded_code stdlib_path_str)
               (add_dir_mapping python_root args).

(** A host without the [lib] tree next to the module. *)
Definition demo_host_nolib : host :=
  {| h_env := h_env (demo_host true EmptyString);
     h_fs := filter (fun '(k, _) => negb (list_string_eqb (firstn 3 k) ["opt"; "py"; "lib"]%string))
                    (demo_fs true);
     h_cwd := "/srv"%string;
     h_home := "/home/svc"%string |}.

(** Names whose first character is not ['-']: they are never taken for an
    option. *)
Definition plain_name (k : string) : Prop := exists c k', k = String c k' /\ c <> "-"%char.

(** What [add_env_args] appends: ["--env"] and ["key=value"] entries. *)
Definition env_entry (env_updates : list (string * string)) (x : string) : Prop :=
  x = "--env"%string \/ exists kv, In kv env_updates /\ x = (fst kv ++ "=" ++ snd kv)%string.

(** What the assembler appends never maps a directory. *)
Definition not_dir_arg (root x : string) : Prop :=
  (x =? "--dir")%string = false /\ startswith x "--dir=" = false /\ x <> host_mapping root.

(* ------------------------------------------------------------------ *)
(** ** Python's [int(str)] and [str(int)] in base 10 *)

(** [sys.int_info.default_max_str_digits]: the digit limit of [int] and
    [str] conversions in base 10. *)
Definition int_max_str_digits : nat := 4300.

(** [Py_ISSPACE]: the ASCII whitespace [PyLong_FromString] skips. *)
Definition is_c_space (c : ascii) : bool :=
  let n := nat_of_ascii c in (n =? 32) || ((9 <=? n) && (n <=? 13)).

(** [Py_UNICODE_ISSPACE] on the code points 127-255. *)
Definition is_latin1_space (c : ascii) : bool :=
  let n := nat_of_ascii c in (n =? 133) || (n =? 160).

(** The loop of [_PyUnicode_TransformDecimalAndSpaceToASCII]; no code
    point in 127-255 is a decimal digit, so any other one ends the copy
    with ['?']. *)
Fixpoint transform_loop (cs : list ascii) : list ascii :=
  match cs with
  | [] => []
  | c :: cs' =>
      if nat_of_ascii c <? 127 then c :: transform_loop cs'
      else if is_latin1_space c then " "%char :: transform_loop cs'
      else ["?"%char]
  end.

(** [_PyUnicode_TransformDecimalAndSpaceToASCII]: an ASCII string is
    returned unchanged. *)
Definition transform_decimal_space (cs : list ascii) : list ascii :=
  if forallb (fun c => nat_of_ascii c <? 128) cs then cs else transform_loop cs.

Fixpoint skip_spaces (cs : list ascii) : list ascii :=
  match cs with
  | c :: cs' => if is_c_space c then skip_spaces cs' else cs
  | [] => []
  end.

Definition digit_val (c : ascii) : Z := Z.of_nat (nat_of_ascii c) - 48.

(** The scan of [PyLong_FromString] for base 10 over digits and single
    underscores between digits: the value, the number of digits and what
    follows; [None] for a doubled or trailing underscore.  [prev_us] says
    that the previous character was an underscore. *)
Fixpoint scan_digits (cs : list ascii) (prev_us : bool) (acc : Z) (n : nat)
  : option (Z * nat * list ascii) :=
  match cs with
  | c :: cs' =>
      if is_digit c then scan_digits cs' false (acc * 10 + digit_val c) (S n)
      else if Ascii.eqb c "_" then
        if prev_us then None else scan_digits cs' true acc n
      else if prev_us then None else Some (acc, n, cs)
  | [] => if prev_us then None else Some (acc, n, [])
  end.

(** [PyLong_FromString(str, &end, 10)] followed by the check that it read
    the whole string; [None] stands for [ValueError]. *)
Definition long_from_string (cs : list ascii) : option Z :=
  let cs := skip_spaces cs in
  let '(sign, cs) :=
    match cs with
    | c :: cs' =>
        if Ascii.eqb c "+" then (1%Z, cs')
        else if Ascii.eqb c "-" then ((-1)%Z, cs') else (1%Z, cs)
    | [] => (1%Z, [])
    end in
  match cs with
  | c :: _ => if Ascii.eqb c "_" then None else
      match scan_digits cs false 0 0 with
      | None => None
      | Some (v, n, rest) =>
          if (n =? 0) || (int_max_str_digits <? n) then None
          else match skip_spaces rest with [] => Some (sign * v)%Z | _ => None end
      end
  | [] => None
  end.

(** [int(s)] for a [str] [s]: [None] when it raises [ValueError]. *)
Definition py_int (s : string) : option Z :=
  long_from_string (transform_decimal_space (list_ascii_of_string s)).

(** The decimal digits of [n], least significant first; [fuel] bounds
    their number. *)
Fixpoint dec_digits_rev (fuel : nat) (n : N) : list ascii :=
  match fuel with
  | O => []
  | S f =>
      ascii_of_N (48 + n mod 10)
      :: (if (n <? 10)%N then [] else dec_digits_rev f (n / 10))
  end.

Definition dec_digits (n : N) : list ascii := rev (dec_digits_rev (S (N.size_nat n)) n).

(** [str(n)] for an [int]: [ValueError] past the digit limit. *)
Definition py_str_int (n : Z) : res string :=
  let ds := dec_digits (Z.abs_N n) in
  if int_max_str_digits <? List.length ds
  then Err (ValueError "Exceeds the limit (4300 digits) for integer string conversion")
  else Ok (string_of_list_ascii ((if (n <? 0)%Z then ["-"%char] else []) ++ ds)).

(* ------------------------------------------------------------------ *)
(** ** [app/core/config.py] *)

Module Config.

Record Settings := {
  max_exec_timeout_ms : Z;
  max_output_bytes : Z;
  cpu_time_limit_sec : Z;
  memory_limit_mb : Z
}.

(** [_int_from_env] *)
Definition _int_from_env (h : host) (name : string) (default : Z) : Z :=
  match environ_get h name with
  | None => default
  | Some raw => match py_int raw with Some v => v | None => default end
  end.

(** [Settings.from_env] *)
Definition from_env (h : host) : Settings :=
  {| max_exec_timeout_ms := _int_from_env h "MAX_EXEC_TIMEOUT_MS" 5000;
     max_output_bytes := _int_from_env h "MAX_OUTPUT_BYTES" 1000000;
     cpu_time_limit_sec := _int_from_env h "CPU_TIME_LIMIT_SEC" 2;
     memory_limit_mb := _int_from_env h "MEMORY_LIMIT_MB" 256 |}.

(** [get_settings] with its [lru_cache(maxsize=1)]: the cache holds the
    settings of the first call. *)
Definition get_settings (cache : option Settings) (h : host) : Settings * option Settings :=
  match cache with
  | Some s => (s, cache)
  | None => let s := from_env h in (s, Some s)
  end.

End Config.

(* ------------------------------------------------------------------ *)
(** ** [app/models/schemas.py] and [app/api/routes.py] *)

Module Schemas.

Record ExecuteRequest := {
  code : string;
  stdin : option string;
  timeout_ms : Z
}.

Record ExecuteResponse := {
  stdout : pystr;
  stderr : pystr;
  exit_code : option Z;
  timed_out : bool;
  duration_ms : Z
}.

(** The validation of [ExecuteRequest] on fields already of their JSON
    types: [code] is required, [stdin] defaults to [None], [timeout_ms]
    to 2000 and must be at least 1 ([Field(2000, ge=1)]). *)
Definition validate_request (code : option string) (stdin : option string)
    (timeout_ms : option Z) : option ExecuteRequest :=
  match code with
  | None => None
  | Some c =>
      let t := match timeout_ms with Some t => t | None => 2000%Z end in
      if (1 <=? t)%Z then Some {| code := c; stdin := stdin; timeout_ms := t |} else None
  end.

End Schemas.

Module Routes.

(** How the request ends: an [HTTPException] or an exception that
    escapes the handler. *)
Inductive route_error :=
| HTTPException (status_code : Z) (detail : string)
| Unhandled (e : pyexc).

Definition HTTP_422_UNPROCESSABLE_ENTITY : Z := 422.

(** The [execute] handler; [settings] is [get_settings()], and
    [h], [w], [ch], [elapsed_ms] are the host, the process table, the
    child's behaviour and the clock as [execute_python] takes them. *)
Definition execute (settings : Config.Settings) (req : Schemas.ExecuteRequest)
    (h : host) (w : world) (ch : child_behaviour) (elapsed_ms : Z)
  : (route_error + world * Schemas.ExecuteResponse) :=
  if (Config.max_exec_timeout_ms settings <? Schemas.timeout_ms req)%Z then
    match py_str_int (Config.max_exec_timeout_ms settings) with
    | Ok m => inl (HTTPException HTTP_422_UNPROCESSABLE_ENTITY
                    ("timeout_ms exceeds maximum of " ++ m ++ " ms"))
    | Err e => inl (Unhandled e)
    end
  else
    match execute_python h w (Schemas.code req) (Schemas.timeout_ms req)
            (Config.max_output_bytes settings) ch elapsed_ms with
    | Err e => inl (Unhandled e)
    | Ok (w', result) =>
        inr (w', {| Schemas.stdout := stdout result;
                    Schemas.stderr := stderr result;
                    Schemas.exit_code := exit_code result;
                    Schemas.timed_out := timed_out result;
                    Schemas.duration_ms := duration_ms result |})
    end.

End Routes.

(* ------------------------------------------------------------------ *)
(** ** [_limit_preexec] (executor.py, lines 32-64) in the forked child *)

Inductive rlimit_resource :=
| RLIMIT_CPU | RLIMIT_AS | RLIMIT_FSIZE | RLIMIT_NOFILE | RLIMIT_NPROC.

Definition rlimit_resource_eqb (a b : rlimit_resource) : bool :=
  match a, b with
  | RLIMIT_CPU, RLIMIT_CPU | RLIMIT_AS, RLIMIT_AS | RLIMIT_FSIZE, RLIMIT_FSIZE
  | RLIMIT_NOFILE, RLIMIT_NOFILE | RLIMIT_NPROC, RLIMIT_NPROC => true
  | _, _ => false
  end.

(** [RLIM_INFINITY] as the kernel's [rlim_t] (unsigned 64 bits). *)
Definition RLIM_INFINITY : Z := (2 ^ 64 - 1)%Z.

(** [sysctl fs.nr_open], the ceiling of [RLIMIT_NOFILE]. *)
Definition NR_OPEN : Z := 1048576.

(** The forked child as the kernel sees it: its ids, whether a process
    group with the child's pid already exists, whether it holds
    [CAP_SYS_RESOURCE], and its (soft, hard) limits. *)
Record child_os := {
  c_pid : Z;
  c_pgid : Z;
  c_sid : Z;
  c_group_exists : bool;
  c_privileged : bool;
  c_limits : rlimit_resource -> Z * Z
}.

Definition set_limit (st : child_os) (r : rlimit_resource) (l : Z * Z) : child_os :=
  {| c_pid := c_pid st; c_pgid := c_pgid st; c_sid := c_sid st;
     c_group_exists := c_group_exists st; c_privileged := c_privileged st;
     c_limits := fun r' => if rlimit_resource_eqb r r' then l else c_limits st r' |}.

(** [py2rlim] ([Modules/resource.c]): a value is read as a C
    [long long] ([OverflowError] outside) and stored in an [rlim_t]. *)
Definition py2rlim (v : Z) : res Z :=
  if ((- 2 ^ 63 <=? v) && (v <? 2 ^ 63))%Z then Ok (Z.land v RLIM_INFINITY)
  else Err (OverflowError "int too big to convert").

(** The kernel's [do_prlimit] for a new limit. *)
Definition kernel_setrlimit (st : child_os) (r : rlimit_resource) (soft hard : Z)
  : res child_os :=
  if (hard <? soft)%Z then Err (ValueError "current limit exceeds maximum limit")
  else if rlimit_resource_eqb r RLIMIT_NOFILE && (NR_OPEN <? hard)%Z
  then Err (ValueError "not allowed to raise maximum limit")
  else if (snd (c_limits st r) <? hard)%Z && negb (c_privileged st)
  then Err (ValueError "not allowed to raise maximum limit")
  else Ok (set_limit st r (soft, hard)).

(** [resource.setrlimit(r, (soft, hard))] *)
Definition setrlimit (st : child_os) (r : rlimit_resource) (soft hard : Z) : res child_os :=
  let* s := py2rlim soft in
  let* hd := py2rlim hard in
  kernel_setrlimit st r s hd.

(** [try: resource.setrlimit(...) except Exception: pass] *)
Definition try_setrlimit (st : child_os) (r : rlimit_resource) (soft hard : Z) : child_os :=
  match setrlimit st r soft hard with Ok st' => st' | Err _ => st end.

(** [os.setsid()]: [EPERM] for a process group leader, or when a group
    with the caller's pid exists. *)
Definition os_setsid (st : child_os) : res child_os :=
  if (c_pgid st =? c_pid st)%Z || c_group_exists st
  then Err (OSError "[Errno 1] Operation not permitted")
  else Ok {| c_pid := c_pid st; c_pgid := c_pid st; c_sid := c_pid st;
             c_group_exists := true; c_privileged := c_privileged st;
             c_limits := c_limits st |}.

(** The [_apply] closure built by [_limit_preexec(cpu_time_sec,
    memory_limit_mb)], run in the child; [resource_available] is
    [resource is not None]. *)
Definition _limit_preexec (resource_available : bool) (cpu_time_sec memory_limit_mb : Z)
    (st : child_os) : res child_os :=
  if negb resource_available then Ok st
  else
    let st := try_setrlimit st RLIMIT_CPU cpu_time_sec cpu_time_sec in
    let bytes_limit := (memory_limit_mb * 1024 * 1024)%Z in
    let st := try_setrlimit st RLIMIT_AS bytes_limit bytes_limit in
    let st := try_setrlimit st RLIMIT_FSIZE (16 * 1024 * 1024) (16 * 1024 * 1024) in
    let st := try_setrlimit st RLIMIT_NOFILE 64 64 in
    let st := try_setrlimit st RLIMIT_NPROC 64 64 in
    os_setsid st.

(** The limits [_apply] asks for. *)
Definition requested_limit (cpu_time_sec memory_limit_mb : Z) (r : rlimit_resource) : Z :=
  match r with
  | RLIMIT_CPU => cpu_time_sec
  | RLIMIT_AS => (memory_limit_mb * 1024 * 1024)%Z
  | RLIMIT_FSIZE => (16 * 1024 * 1024)%Z
  | RLIMIT_NOFILE => 64%Z
  | RLIMIT_NPROC => 64%Z
  end.

(** Whether the kernel accepts the limit [(v, v)] for [r], from the
    child's current limits. *)
Definition limit_accepted (st : child_os) (r : rlimit_resource) (v : Z) : bool :=
  negb (rlimit_resource_eqb r RLIMIT_NOFILE && (NR_OPEN <? v)%Z)
  && ((v <=? snd (c_limits st r))%Z || c_privileged st).

(* ------------------------------------------------------------------ *)
(** ** The guest side of [_WASM_BOOTSTRAP_SCRIPT] (lines 75-91) *)

(** [base64.b64decode]'s table: 64 and above for a non-alphabet byte. *)
Definition table_a2b_base64 (c : ascii) : N :=
  let n := N.of_nat (nat_of_ascii c) in
  if ((65 <=? n) && (n <=? 90))%N then (n - 65)%N
  else if ((97 <=? n) && (n <=? 122))%N then (n - 71)%N
  else if ((48 <=? n) && (n <=? 57))%N then (n + 4)%N
  else if (n =? 43)%N then 62%N
  else if (n =? 47)%N then 63%N
  else 255%N.

(** The [unsigned char] a value is stored in. *)
Definition byte_of (n : N) : byte :=
  match Byte.of_N (N.land n 255) with Some b => b | None => x00 end.

Definition BASE64_PAD : ascii := "=".

(** The loop of [binascii.a2b_base64] with [strict_mode=False]
    ([Modules/binascii.c]): non-alphabet bytes are skipped, a pad ends
    the data once the quad has two characters and enough pads; [acc] is
    the output reversed and [n_out] its length. *)
Fixpoint a2b_loop (cs : list ascii) (quad_pos : nat) (leftchar : N) (pads : nat)
    (acc : list byte) (n_out : nat) : res pybytes :=
  match cs with
  | [] =>
      match quad_pos with
      | 0 => Ok (rev acc)
      | 1 => Err (ValueError ("Invalid base64-encoded string: number of data characters ("
                   ++ string_of_list_ascii (dec_digits (N.of_nat (n_out / 3 * 4 + 1)))
                   ++ ") cannot be 1 more than a multiple of 4"))
      | _ => Err (ValueError "Incorrect padding")
      end
  | c :: cs' =>
      if Ascii.eqb c BASE64_PAD then
        if 2 <=? quad_pos then
          if 4 <=? quad_pos + S pads then Ok (rev acc)
          else a2b_loop cs' quad_pos leftchar (S pads) acc n_out
        else a2b_loop cs' quad_pos leftchar pads acc n_out
      else
        let v := table_a2b_base64 c in
        if (64 <=? v)%N then a2b_loop cs' quad_pos leftchar pads acc n_out
        else
          match quad_pos with
          | 0 => a2b_loop cs' 1 v 0 acc n_out
          | 1 => a2b_loop cs' 2 (N.land v 15) 0
                   (byte_of (N.lor (N.shiftl leftchar 2) (N.shiftr v 4)) :: acc) (S n_out)
          | 2 => a2b_loop cs' 3 (N.land v 3) 0
                   (byte_of (N.lor (N.shiftl leftchar 4) (N.shiftr v 2)) :: acc) (S n_out)
          | _ => a2b_loop cs' 0 0 0
                   (byte_of (N.lor (N.shiftl leftchar 6) v) :: acc) (S n_out)
          end
  end.

(** [base64.b64decode(s)] for a [str]: it must be ASCII. *)
Definition b64decode (s : string) : res pybytes :=
  let cs := list_ascii_of_string s in
  if forallb (fun c => nat_of_ascii c <? 128) cs then a2b_loop cs 0 0 0 [] 0
  else Err (ValueError "string argument should contain only ASCII characters").

(** The guest interpreter's state the bootstrap touches. *)
Record guest := {
  g_prefix : string;
  g_exec_prefix : string;
  g_path : list string
}.

(** [sys.path.insert(0, e)] unless [e in sys.path]. *)
Definition insert_front (sp : list string) (e : string) : list string :=
  if existsb (String.eqb e) sp then sp else e :: sp.

(** Lines 78-86 of the bootstrap, with the guest environment [genv]. *)
Definition bootstrap_sys (genv : list (string * string)) (g : guest) : guest :=
  let g :=
    match assoc String.eqb "PYTHON_WASM_PREFIX"%string genv with
    | Some p => if (p =? EmptyString)%string then g
                else {| g_prefix := p; g_exec_prefix := p; g_path := g_path g |}
    | None => g
    end in
  match assoc String.eqb "PYTHON_WASM_STDLIB_PATHS"%string genv with
  | Some paths =>
      if (paths =? EmptyString)%string then g
      else
        let entries := filter (fun p => negb (p =? EmptyString)%string) (split_on ":"%char paths) in
        {| g_prefix := g_prefix g; g_exec_prefix := g_exec_prefix g;
           g_path := fold_left insert_front (rev entries) (g_path g) |}
  | None => g
  end.

(** One step of the strict UTF-8 decoder ([errors="strict"]): [None]
    where [dec1] substitutes U+FFFD for an ill-formed sequence. *)
Definition dec1_strict (b1 : byte) (rest : pybytes) : option (N * nat) :=
  let v1 := bval b1 in
  if (v1 <? 128)%N then Some (v1, 0)
  else if (v1 <? 194)%N then None
  else if (v1 <? 224)%N then
    match rest with
    | b2 :: _ =>
        if is_cont b2
        then Some (N.lor (N.shiftl (N.land v1 31) 6) (low6 b2), 1)
        else None
    | [] => None
    end
  else if (v1 <? 240)%N then
    match rest with
    | b2 :: b3 :: _ =>
        if second_ok3 v1 b2 && is_cont b3
        then Some (N.lor (N.shiftl (N.land v1 15) 12)
                     (N.lor (N.shiftl (low6 b2) 6) (low6 b3)), 2)
        else None
    | _ => None
    end
  else if (v1 <? 245)%N then
    match rest with
    | b2 :: b3 :: b4 :: _ =>
        if second_ok4 v1 b2 && is_cont b3 && is_cont b4
        then Some (N.lor (N.shiftl (N.land v1 7) 18)
                     (N.lor (N.shiftl (low6 b2) 12)
                       (N.lor (N.shiftl (low6 b3) 6) (low6 b4))), 3)
        else None
    | _ => None
    end
  else None.

Fixpoint decode_strict_loop (fuel : nat) (s : pybytes) : option pystr :=
  match fuel, s with
  | S fuel', b1 :: rest =>
      match dec1_strict b1 rest with
      | Some (c, k) =>
          match decode_strict_loop fuel' (skipn k rest) with
          | Some t => Some (c :: t)
          | None => None
          end
      | None => None
      end
  | _, _ => Some []
  end.

(** [s.decode("utf-8")]: [None] is the [UnicodeDecodeError]. *)
Definition decode_strict (s : pybytes) : option pystr :=
  decode_strict_loop (List.length s) s.

(** What line 87 raises in the guest. *)
Inductive guest_exc :=
| KeyError (key : string)
| GuestRaised (e : pyexc)
| UnicodeDecodeError.

(** Line 87: [base64.b64decode(_os.environ['PY_CODE_B64']).decode('utf-8')]. *)
Definition bootstrap_code (genv : list (string * string)) : guest_exc + pystr :=
  match assoc String.eqb "PY_CODE_B64"%string genv with
  | None => inl (KeyError "PY_CODE_B64")
  | Some b =>
      match b64decode b with
      | Err e => inl (GuestRaised e)
      | Ok bs => match decode_strict bs with
                 | Some t => inr t
                 | None => inl UnicodeDecodeError
                 end
      end
  end.

(** The code points of a Rocq [string]. *)
Definition code_points (s : string) : pystr :=
  map (fun c => N.of_nat (nat_of_ascii c)) (list_ascii_of_string s).

(* ------------------------------------------------------------------ *)
(** ** Helpers for stating properties of the service layer *)

(** The characters [PyLong_FromString] can read in base 10. *)
Definition int_char_allowed (c : ascii) : bool :=
  is_digit c || is_c_space c || Ascii.eqb c "+" || Ascii.eqb c "-" || Ascii.eqb c "_".

(** One Horner step per digit, as [scan_digits] accumulates them. *)
Definition digits_value (ds : list ascii) (acc : Z) : Z :=
  fold_left (fun a c => a * 10 + digit_val c)%Z ds acc.

(** A host for trying the service layer: the environment [env] over the
    demonstration file system. *)
Definition demo_env_host (env : list (string * string)) : host :=
  {| h_env := env ++ h_env (demo_host true EmptyString);
     h_fs := h_fs (demo_host true EmptyString);
     h_cwd := "/srv"%string;
     h_home := "/home/svc"%string |}.

Definition demo_world : world := {| w_posix := true; w_procs := [] |}.

(** A child that writes [out] and exits with status 0. *)
Definition demo_child (out : pybytes) : child_behaviour :=
  {| ch_run := fun ps => (ps, Finished out [] 0); ch_drain := ([], []) |}.

Definition demo_request (t : Z) : Schemas.ExecuteRequest :=
  {| Schemas.code := "print(1)"; Schemas.stdin := None; Schemas.timeout_ms := t |}.

(** A freshly forked child: not a group leader, unprivileged, with no
    limits. *)
Definition demo_child_os : child_os :=
  {| c_pid := 4242; c_pgid := 4000; c_sid := 4000; c_group_exists := false;
     c_privileged := false; c_limits := fun _ => (RLIM_INFINITY, RLIM_INFINITY) |}.

(** The byte values, for checking a property of bytes one value at a
    time. *)
Definition below256 : list N := map N.of_nat (seq 0 256).

(* ------------------------------------------------------------------ *)
(** ** [app/main.py] *)

Module Main.

(** [run] from [import uvicorn] on: the host and port it hands to
    [uvicorn.run]; [None] when [int(port_str)] raises [ValueError]. *)
Definition run (h : host) : option (string * Z) :=
  let host := match environ_get h "HOST" with
              | Some v => v | None => "127.0.0.1"%string end in
  let port_str := environ_get h "PORT" in
  let port := match port_str with
              | Some s => if (s =? EmptyString)%string then Some 8000%Z else py_int s
              | None => Some 8000%Z
              end in
  match port with
  | Some port => Some (host, port)
  | None => None
  end.

End Main.

(* ------------------------------------------------------------------ *)
(** ** Checks of the base64 quads *)

(** The six positions of a base64 quad, as [b64_encode] computes them. *)
Definition quad_ok1 (a : N) : bool :=
  let x1 := N.shiftr a 2 in
  let x2' := N.shiftl (N.land a 3) 4 in
  (x1 <? 64)%N && (x2' <? 64)%N && (N.lor (N.shiftl x1 2) (N.shiftr x2' 4) =? a)%N &&
  (N.land a 63 <? 64)%N && (N.lor (N.shiftl (N.shiftr a 6) 6) (N.land a 63) =? a)%N &&
  (N.shiftl (N.land a 15) 2 <? 64)%N &&
  (N.lor (N.shiftl (N.shiftr a 4) 4) (N.shiftr (N.shiftl (N.land a 15) 2) 2) =? a)%N.

Definition quad_ok2 (a b : N) : bool :=
  let x2 := N.lor (N.shiftl (N.land a 3) 4) (N.shiftr b 4) in
  let x3 := N.lor (N.shiftl (N.land a 15) 2) (N.shiftr b 6) in
  (x2 <? 64)%N && (N.lor (N.shiftl (N.shiftr a 2) 2) (N.shiftr x2 4) =? a)%N &&
  (N.land x2 15 =? N.shiftr b 4)%N &&
  (x3 <? 64)%N && (N.lor (N.shiftl (N.shiftr a 4) 4) (N.shiftr x3 2) =? a)%N &&
  (N.land x3 3 =? N.shiftr b 6)%N.

(** A component [posixpath.normpath] keeps for an absolute path. *)
Definition good_comp (c : string) : Prop :=
  c <> EmptyString /\ c <> "."%string /\ c <> ".."%string /\ contains_char SLASH c = false.

(* ================================================================== *)
(** * Lemmas *)

(* ------------------------------------------------------------------ *)
(** ** Facts about the decoder *)

Ltac split_ifs :=
  repeat match goal with
  | |- context [if ?c then _ else _] => let E := fresh "E" in destruct c eqn:E
  end.

Lemma dec1_consumed (b : byte) (rest : pybytes) :
  snd (dec1 b rest) <= List.length rest.
Proof.
  unfold dec1; cbv zeta.
  destruct rest as [|b2 [|b3 [|b4 r]]]; cbv beta iota; split_ifs; simpl; lia.
Qed.

Lemma decode_loop_length (n : nat) (s : pybytes) :
  List.length (decode_loop n s) <= List.length s.
Proof.
  revert s; induction n as [|n IH]; intros [|b rest]; simpl; try lia.
  pose proof (dec1_consumed b rest) as Hk.
  destruct (dec1 b rest) as [c k]; simpl in *.
  specialize (IH (skipn k rest)); rewrite length_skipn in IH; lia.
Qed.

Lemma decode_replace_length (s : pybytes) :
  List.length (decode_replace s) <= List.length s.
Proof. apply decode_loop_length. Qed.

(** Any fuel at least the input length gives the same decoding. *)
Lemma decode_loop_fuel (n m : nat) (s : pybytes) :
  List.length s <= n -> List.length s <= m -> decode_loop n s = decode_loop m s.
Proof.
  revert m s; induction n as [|n IH]; intros m [|b rest] Hn Hm; simpl in *;
    try lia; destruct m as [|m]; simpl; try lia; try reflexivity.
  pose proof (dec1_consumed b rest) as Hk.
  destruct (dec1 b rest) as [c k]; simpl in *.
  f_equal; apply IH; rewrite length_skipn; lia.
Qed.

Lemma ascii_not_cont (y : byte) : is_ascii_byte y -> is_cont y = false.
Proof.
  unfold is_ascii_byte, is_cont; intros H.
  destruct (128 <=? bval y)%N eqn:E; [apply N.leb_le in E; lia | reflexivity].
Qed.

Lemma ascii_not_second3 (v : N) (y : byte) : is_ascii_byte y -> second_ok3 v y = false.
Proof.
  unfold is_ascii_byte, second_ok3; intros H; cbv zeta.
  rewrite (ascii_not_cont y H).
  destruct (v =? 224)%N; [|destruct (v =? 237)%N]; try reflexivity;
    destruct (_ <=? bval y)%N eqn:E; try reflexivity; apply N.leb_le in E; lia.
Qed.

Lemma ascii_not_second4 (v : N) (y : byte) : is_ascii_byte y -> second_ok4 v y = false.
Proof.
  unfold is_ascii_byte, second_ok4; intros H; cbv zeta.
  rewrite (ascii_not_cont y H).
  destruct (v =? 240)%N; [|destruct (v =? 244)%N]; try reflexivity;
    destruct (_ <=? bval y)%N eqn:E; try reflexivity; apply N.leb_le in E; lia.
Qed.

(** An ASCII byte never continues a multi-byte sequence, so a step of the
    decoder does not see past the end of [xs] into ASCII bytes. *)
Lemma dec1_app_ascii (b : byte) (xs ys : pybytes) :
  Forall is_ascii_byte ys -> dec1 b (xs ++ ys) = dec1 b xs.
Proof.
  intros H; destruct ys as [|y ys]; [now rewrite app_nil_r|].
  inversion H as [|? ? Hy _]; subst.
  pose proof (ascii_not_cont y Hy) as Hc.
  pose proof (fun v => ascii_not_second3 v y Hy) as H3.
  pose proof (fun v => ascii_not_second4 v y Hy) as H4.
  unfold dec1; cbv zeta.
  destruct xs as [|x1 [|x2 [|x3 xs]]]; cbn [app]; cbv beta iota;
    rewrite ?Hc, ?H3, ?H4; cbv beta iota; reflexivity.
Qed.

Lemma decode_loop_ascii (n : nat) (ys : pybytes) :
  Forall is_ascii_byte ys -> List.length ys <= n -> decode_loop n ys = map bval ys.
Proof.
  revert ys; induction n as [|n IH]; intros [|y ys] H Hn; simpl in *; try lia;
    try reflexivity.
  inversion H as [|? ? Hy Hys]; subst.
  unfold dec1 at 1; cbv zeta.
  unfold is_ascii_byte in Hy.
  destruct (bval y <? 128)%N eqn:E; [|apply N.ltb_ge in E; lia].
  simpl; f_equal; apply IH; auto; lia.
Qed.

(** Decoding splits at a boundary followed by ASCII bytes only. *)
Lemma decode_loop_app_ascii (n : nat) (xs ys : pybytes) :
  Forall is_ascii_byte ys -> List.length xs + List.length ys <= n ->
  decode_loop n (xs ++ ys) = decode_loop n xs ++ map bval ys.
Proof.
  revert xs; induction n as [|n IH]; intros xs H Hn.
  - destruct xs, ys; simpl in *; try lia; reflexivity.
  - destruct xs as [|b xs'].
    + simpl app. rewrite (decode_loop_ascii (S n) ys H) by (simpl in Hn; lia).
      reflexivity.
    + simpl. rewrite (dec1_app_ascii b xs' ys H).
      pose proof (dec1_consumed b xs') as Hk.
      destruct (dec1 b xs') as [c k]; simpl in *.
      rewrite skipn_app.
      replace (k - List.length xs') with 0 by lia; simpl.
      rewrite IH; auto. rewrite length_skipn; lia.
Qed.

Lemma decode_replace_app_ascii (xs ys : pybytes) :
  Forall is_ascii_byte ys ->
  decode_replace (xs ++ ys) = decode_replace xs ++ map bval ys.
Proof.
  intros H; unfold decode_replace.
  rewrite decode_loop_app_ascii; auto; [|rewrite length_app; lia].
  f_equal; apply decode_loop_fuel; rewrite ?length_app; lia.
Qed.

Lemma suffix_ascii : Forall is_ascii_byte TRUNCATION_SUFFIX.
Proof. repeat constructor; unfold is_ascii_byte; simpl; lia. Qed.

(* ------------------------------------------------------------------ *)
(** ** Properties of the output sanitiser *)

(** C1 (counterexample): the UTF-8 length of the sanitised text can exceed
    the cap: with cap 0 a one-byte stream becomes the whole 15-byte marker,
    and with cap 1 the invalid byte 0xFF becomes U+FFFD, three bytes. *)
Lemma C1_counterexample :
  (Z.of_nat (utf8_len (_truncate [x61] 0)) > 0)%Z /\
  (Z.of_nat (utf8_len (_truncate [xff] 1)) > 1)%Z.
Proof. split; vm_compute; reflexivity. Qed.

(** C1 (amended): the sanitised text has at most [max(cap, 15)] code points
    (Python [len]), and when the raw stream is longer than the cap it ends
    with the whole truncation marker ["\n...[truncated]"]. *)
Theorem C1_truncate_bounded (s : pybytes) (cap : Z) :
  (Z.of_nat (List.length (_truncate s cap)) <= Z.max cap 15)%Z /\
  ((cap < Z.of_nat (List.length s))%Z ->
   exists p, _truncate s cap = p ++ TRUNCATION_MARKER).
Proof.
  unfold _truncate.
  destruct (Z.of_nat (List.length s) <=? cap)%Z eqn:E.
  - apply Z.leb_le in E; split; [|lia].
    pose proof (decode_replace_length s); lia.
  - apply Z.leb_gt in E; split.
    + pose proof (decode_replace_length
        (firstn (Z.to_nat (Z.max 0 (cap - 32))) s ++ TRUNCATION_SUFFIX)) as H.
      rewrite length_app, length_firstn in H; simpl in H; lia.
    + intros _; eexists; apply decode_replace_app_ascii, suffix_ascii.
Qed.

(** C2 (counterexample): over the cap the code keeps [cap - 32] bytes, not
    [cap - 15]: 50 bytes ['a'] with cap 40 keep 8, the reading of the
    specification keeps 25. *)
Lemma C2_counterexample :
  _truncate (repeat x61 50) 40 <> truncate_spec (repeat x61 50) 40.
Proof. vm_compute; discriminate. Qed.

(** C2 (amended): within the cap the stream is decoded whole with
    replacement; over the cap the first [max(0, cap - 32)] bytes are kept,
    and the text is their decoding (with replacement) followed by the whole
    marker, which is never cut. *)
Theorem C2_truncate_branches (s : pybytes) (cap : Z) :
  ((Z.of_nat (List.length s) <= cap)%Z -> _truncate s cap = decode_replace s) /\
  ((cap < Z.of_nat (List.length s))%Z ->
   _truncate s cap =
   decode_replace (firstn (Z.to_nat (Z.max 0 (cap - 32))) s) ++ TRUNCATION_MARKER).
Proof.
  unfold _truncate; split; intros H.
  - apply Z.leb_le in H; rewrite H; reflexivity.
  - apply Z.leb_gt in H; rewrite H.
    apply decode_replace_app_ascii, suffix_ascii.
Qed.


Lemma has_mapping_count (args : list string) :
  _has_mapping args = (0 <? count_dir args).
Proof.
  induction args as [|v rest IH]; [reflexivity|].
  simpl; unfold dir_here.
  destruct (v =? "--dir")%string.
  - destruct rest as [|n rest'].
    + exact IH.
    + destruct (endswith n target_suffix); [reflexivity|exact IH].
  - destruct (startswith v "--dir=" && endswith (drop_chars 6 v) target_suffix);
      [reflexivity|exact IH].
Qed.

Lemma env_present_count (prefix : string) (args : list string) :
  env_arg_present prefix args = (0 <? count_env prefix args).
Proof.
  induction args as [|v rest IH]; [reflexivity|].
  simpl; unfold env_here.
  destruct (v =? "--env")%string.
  - destruct rest as [|n rest'].
    + exact IH.
    + destruct (startswith n prefix); [reflexivity|exact IH].
  - destruct (startswith v "--env=" && startswith (drop_chars 6 v) prefix);
      [reflexivity|exact IH].
Qed.

Lemma count_dir_app (a b : list string) :
  (forall n rest, b = n :: rest -> endswith n target_suffix = false) ->
  count_dir (a ++ b) = count_dir a + count_dir b.
Proof.
  intros Hb; induction a as [|v a' IH]; [reflexivity|].
  simpl; rewrite IH; destruct a' as [|x a''].
  - simpl; unfold dir_here.
    destruct b as [|n rest]; [simpl; lia|].
    rewrite (Hb n rest eq_refl); destruct (v =? "--dir")%string; lia.
  - unfold dir_here, env_here; simpl; lia.
Qed.

Lemma count_env_app (p : string) (a b : list string) :
  (forall n rest, b = n :: rest -> startswith n p = false) ->
  count_env p (a ++ b) = count_env p a + count_env p b.
Proof.
  intros Hb; induction a as [|v a' IH]; [reflexivity|].
  simpl; rewrite IH; destruct a' as [|x a''].
  - simpl; unfold env_here.
    destruct b as [|n rest]; [simpl; lia|].
    rewrite (Hb n rest eq_refl); destruct (v =? "--env")%string; lia.
  - unfold dir_here, env_here; simpl; lia.
Qed.

Lemma prefix_first_char (a c : ascii) (s1 s2 : string) :
  a <> c -> String.prefix (String a s1) (String c s2) = false.
Proof. intros H; simpl; destruct (ascii_dec a c); [contradiction|reflexivity]. Qed.

Lemma eqb_first_char (a c : ascii) (s1 s2 : string) :
  a <> c -> (String a s1 =? String c s2)%string = false.
Proof. intros H; apply String.eqb_neq; congruence. Qed.

Lemma substring_app_length (r s : string) :
  String.substring (String.length r) (String.length s) (r ++ s) = s.
Proof.
  induction r as [|c r IH]; simpl.
  - induction s as [|c s IH]; simpl; [reflexivity|now rewrite IH].
  - exact IH.
Qed.

Lemma length_append (r s : string) :
  String.length (r ++ s) = String.length r + String.length s.
Proof. induction r; simpl; auto. Qed.

Lemma endswith_app (r s : string) : endswith (r ++ s) s = true.
Proof.
  unfold endswith; rewrite length_append.
  replace (String.length r + String.length s - String.length s) with (String.length r) by lia.
  rewrite substring_app_length, String.eqb_refl.
  apply andb_true_intro; split; [apply Nat.leb_le; lia|reflexivity].
Qed.

Lemma prefix_app (r s : string) : String.prefix r (r ++ s) = true.
Proof.
  induction r as [|c r IH]; simpl; [destruct s; reflexivity|].
  destruct (ascii_dec c c); [exact IH|contradiction].
Qed.

Lemma append_assoc_str (a b c : string) : ((a ++ b) ++ c)%string = (a ++ b ++ c)%string.
Proof. induction a; simpl; congruence. Qed.

Lemma isabs_cons (root : string) :
  isabs root = true -> exists r, root = String "/"%char r.
Proof.
  unfold isabs; destruct root as [|c r]; cbn [String.prefix]; intros H; [discriminate|].
  destruct (ascii_dec "/" c) as [<-|Hn]; [eauto|discriminate].
Qed.


Lemma plain_name_app (k s : string) : plain_name k -> plain_name (k ++ s).
Proof. intros (c & k' & -> & Hc); exists c, (k' ++ s)%string; split; auto. Qed.

Lemma plain_not_opt (k opt o' : string) :
  plain_name k -> (String.prefix (String "-" o') k = false /\
                   (k =? String "-" o')%string = false).
Proof.
  intros (c & k' & -> & Hc); split.
  - apply prefix_first_char; congruence.
  - apply eqb_first_char; auto.
Qed.

Lemma plain_not_prefix_of_opt (k o' : string) :
  plain_name k -> startswith (String "-" o') k = false.
Proof. intros (c & k' & -> & Hc); apply prefix_first_char; auto. Qed.

Lemma host_mapping_not_opt (root : string) :
  isabs root = true ->
  forall o', String.prefix (String "-" o') (host_mapping root) = false /\
             (host_mapping root =? String "-" o')%string = false.
Proof.
  intros Hr o'; apply plain_not_opt with (opt := EmptyString).
  destruct (isabs_cons root Hr) as [r ->]; exists "/"%char, (r ++ "::" ++ guest_name)%string.
  split; [reflexivity|discriminate].
Qed.

Lemma host_mapping_suffix (root : string) : endswith (host_mapping root) target_suffix = true.
Proof. apply endswith_app. Qed.

Lemma opt_prefix_env_dir : String.prefix "--env=" "--dir" = false.
Proof. reflexivity. Qed.
Lemma opt_prefix_dir_env : String.prefix "--dir=" "--env" = false.
Proof. reflexivity. Qed.

Lemma add_dir_mapping_count_dir (root : string) (a : list string) :
  isabs root = true ->
  count_dir (add_dir_mapping root a) = Nat.max 1 (count_dir a).
Proof.
  intros Hr; unfold add_dir_mapping; rewrite has_mapping_count.
  destruct (0 <? count_dir a) eqn:E.
  - apply Nat.ltb_lt in E; lia.
  - apply Nat.ltb_ge in E.
    rewrite count_dir_app by (intros n rest [= <- _]; reflexivity).
    cbn [count_dir]; unfold dir_here; cbn [String.eqb Ascii.eqb Bool.eqb andb].
    destruct (host_mapping_not_opt root Hr "-dir") as [P1 E1].
    destruct (host_mapping_not_opt root Hr "-dir=") as [P2 _].
    rewrite host_mapping_suffix, E1; unfold startswith; rewrite P2; rewrite ?opt_prefix_env_dir, ?opt_prefix_dir_env; cbn [andb]; lia.
Qed.

Lemma add_dir_mapping_count_env (root p : string) (a : list string) :
  isabs root = true -> startswith "--dir" p = false ->
  count_env p (add_dir_mapping root a) = count_env p a.
Proof.
  intros Hr Hp; unfold add_dir_mapping.
  destruct (_has_mapping a); [reflexivity|].
  rewrite count_env_app by (intros n rest [= <- _]; exact Hp).
  cbn [count_env]; unfold env_here; cbn [String.eqb Ascii.eqb Bool.eqb andb].
  destruct (host_mapping_not_opt root Hr "-env") as [_ E1].
  destruct (host_mapping_not_opt root Hr "-env=") as [P2 _].
  rewrite E1; unfold startswith; rewrite P2; rewrite ?opt_prefix_env_dir, ?opt_prefix_dir_env; cbn [andb]; lia.
Qed.

Lemma ensure_count_same (k v : string) (a : list string) :
  plain_name k ->
  count_env (k ++ "=") (_ensure_env_arg a k v) = Nat.max 1 (count_env (k ++ "=") a).
Proof.
  intros Hk; unfold _ensure_env_arg; rewrite env_present_count.
  destruct (0 <? count_env (k ++ "=") a) eqn:E.
  - apply Nat.ltb_lt in E; lia.
  - apply Nat.ltb_ge in E.
    assert (Hkv : plain_name (k ++ "=" ++ v)) by now apply plain_name_app.
    destruct (plain_not_opt _ EmptyString "-env" Hkv) as [_ E1].
    destruct (plain_not_opt _ EmptyString "-env=" Hkv) as [P2 _].
    pose proof (plain_not_prefix_of_opt _ "-env" (plain_name_app k "=" Hk)) as P3.
    rewrite count_env_app by (intros n rest [= <- _]; exact P3).
    cbn [count_env]; unfold env_here; cbn [String.eqb Ascii.eqb Bool.eqb andb].
    unfold startswith; rewrite E1, P2, <- append_assoc_str, prefix_app; rewrite ?opt_prefix_env_dir, ?opt_prefix_dir_env; cbn [andb]; lia.
Qed.

Lemma ensure_count_other (k v p : string) (a : list string) :
  plain_name k -> startswith "--env" p = false -> startswith (k ++ "=" ++ v) p = false ->
  count_env p (_ensure_env_arg a k v) = count_env p a.
Proof.
  intros Hk Hp Hkv; unfold _ensure_env_arg.
  destruct (env_arg_present (k ++ "=") a); [reflexivity|].
  assert (Hkv' : plain_name (k ++ "=" ++ v)) by now apply plain_name_app.
  destruct (plain_not_opt _ EmptyString "-env" Hkv') as [_ E1].
  destruct (plain_not_opt _ EmptyString "-env=" Hkv') as [P2 _].
  rewrite count_env_app by (intros n rest [= <- _]; exact Hp).
  cbn [count_env]; unfold env_here; cbn [String.eqb Ascii.eqb Bool.eqb andb].
  rewrite Hkv, E1; unfold startswith in *; rewrite P2; rewrite ?opt_prefix_env_dir, ?opt_prefix_dir_env; cbn [andb]; lia.
Qed.

Lemma ensure_count_dir (k v : string) (a : list string) :
  plain_name k -> count_dir (_ensure_env_arg a k v) = count_dir a.
Proof.
  intros Hk; unfold _ensure_env_arg.
  destruct (env_arg_present (k ++ "=") a); [reflexivity|].
  assert (Hkv' : plain_name (k ++ "=" ++ v)) by now apply plain_name_app.
  destruct (plain_not_opt _ EmptyString "-dir" Hkv') as [_ E1].
  destruct (plain_not_opt _ EmptyString "-dir=" Hkv') as [P2 _].
  rewrite count_dir_app by (intros n rest [= <- _]; reflexivity).
  cbn [count_dir]; unfold dir_here; cbn [String.eqb Ascii.eqb Bool.eqb andb].
  rewrite E1; unfold startswith; rewrite P2; rewrite ?opt_prefix_env_dir, ?opt_prefix_dir_env; cbn [andb]; lia.
Qed.


Lemma add_env_args_extends (U : list (string * string)) (a : list string) :
  exists b, add_env_args U a = a ++ b /\ Forall (env_entry U) b.
Proof.
  unfold add_env_args; revert a; induction U as [|[k v] U IH]; intros a.
  - exists []; rewrite app_nil_r; auto.
  - cbn [fold_left]; cbn [fst snd].
    unfold _ensure_env_arg at 2.
    destruct (env_arg_present (k ++ "=") a).
    + destruct (IH a) as [b [Hb Fb]]; exists b; split; [exact Hb|].
      eapply Forall_impl; [|exact Fb].
      intros x [Hx|(kv & Hin & Hx)]; [left; auto|right; exists kv; split; [right|]; auto].
    + destruct (IH (a ++ ["--env"; k ++ "=" ++ v]%string)) as [b [Hb Fb]].
      exists (["--env"; k ++ "=" ++ v]%string ++ b); rewrite app_assoc; split; [exact Hb|].
      apply Forall_app; split.
      * constructor; [left; reflexivity|].
        constructor; [right; exists (k, v); split; [left|]; reflexivity|constructor].
      * eapply Forall_impl; [|exact Fb].
        intros x [Hx|(kv & Hin & Hx)]; [left; auto|right; exists kv; split; [right|]; auto].
Qed.

Lemma add_dir_mapping_extends (root : string) (a : list string) :
  exists b, add_dir_mapping root a = a ++ b.
Proof.
  unfold add_dir_mapping; destruct (_has_mapping a);
    [exists []; now rewrite app_nil_r | eexists; reflexivity].
Qed.

Lemma add_env_args_present (U : list (string * string)) (a : list string) :
  Forall (fun kv => env_arg_present (fst kv ++ "=") a = true) U -> add_env_args U a = a.
Proof.
  unfold add_env_args; induction 1 as [|[k v] U Hkv _ IH]; [reflexivity|].
  cbn [fold_left fst snd] in *; unfold _ensure_env_arg at 2; rewrite Hkv; exact IH.
Qed.

Lemma required_keys_fst (enc sp : string) :
  map fst (make_env_updates enc sp) = required_keys sp.
Proof. unfold required_keys, make_env_updates; destruct (sp =? EmptyString)%string; reflexivity. Qed.

Ltac plain_name_tac := eexists _, _; split; [reflexivity|discriminate].

Ltac count_env_steps :=
  repeat first
    [ rewrite ensure_count_same by plain_name_tac
    | rewrite ensure_count_other by first [reflexivity | plain_name_tac] ].

Lemma assemble_count_env (root enc sp : string) (args : list string) (k : string) :
  isabs root = true -> In k (required_keys sp) ->
  count_env (k ++ "=") (assemble root enc sp args) = Nat.max 1 (count_env (k ++ "=") args).
Proof.
  intros Hr Hk; unfold assemble, add_env_args, make_env_updates, required_keys, make_env_updates in *.
  destruct (sp =? EmptyString)%string; cbn [app map fst fold_left snd In] in *;
    repeat destruct Hk as [<-|Hk]; try contradiction;
    count_env_steps; rewrite add_dir_mapping_count_env by (auto; reflexivity); reflexivity.
Qed.

Lemma assemble_count_dir (root enc sp : string) (args : list string) :
  isabs root = true ->
  count_dir (assemble root enc sp args) = Nat.max 1 (count_dir args).
Proof.
  intros Hr; unfold assemble, add_env_args, make_env_updates.
  destruct (sp =? EmptyString)%string; cbn [app fold_left fst snd];
    repeat rewrite ensure_count_dir by plain_name_tac;
    apply add_dir_mapping_count_dir; exact Hr.
Qed.

Lemma resolved_parent_abs (h : host) (p : string) : isabs (resolved_parent h p) = true.
Proof.
  unfold isabs, resolved_parent; cbn [String.append].
  destruct (String.concat _ _); reflexivity.
Qed.

(** The runtime arguments of the invocation are the caller's, assembled. *)
Lemma build_invocation_args (h : host) (code : string) (inv : invocation)
    (rt m : string) (args0 : list string) :
  _resolve_wasm_runtime h = Ok (rt, m, args0) ->
  build_invocation h code = Ok inv ->
  inv_stdlib_paths inv = _discover_stdlib_paths h (resolved_parent h m) guest_prefix /\
  inv_runtime_args inv =
  assemble (resolved_parent h m) (encode_code code)
           (String.concat ":" (inv_stdlib_paths inv)) args0.
Proof.
  intros Hr Hb; unfold build_invocation in Hb; rewrite Hr in Hb.
  injection Hb as <-; split; reflexivity.
Qed.

Lemma count_positive_present (p : string) (a : list string) :
  1 <= count_env p a -> env_arg_present p a = true.
Proof. intros H; rewrite env_present_count; apply Nat.ltb_lt; lia. Qed.

(** C5 (counterexample): caller arguments that already hold two guest-prefix
    mappings keep both, so the assembled list has a duplicate mapping. *)
Lemma C5_counterexample :
  match build_invocation (demo_host true "--dir /a::python --dir /b::python") "print(1)" with
  | Ok inv => count_dir (inv_runtime_args inv) = 2
  | Err _ => False
  end.
Proof. vm_compute; reflexivity. Qed.

(** C5 (amended): assembly never adds a duplicate.  The result starts with
    the caller's arguments unchanged; it holds [max(1, n)] guest-prefix
    mappings and [max(1, n)] injections of each required key, [n] being the
    caller's count; assembling the result again changes nothing. *)
Theorem C5_assembly_adds_no_duplicates (h : host) (code : string) (inv : invocation)
    (rt m : string) (args0 : list string) :
  _resolve_wasm_runtime h = Ok (rt, m, args0) ->
  build_invocation h code = Ok inv ->
  let root := resolved_parent h m in
  let sp := String.concat ":" (inv_stdlib_paths inv) in
  count_dir (inv_runtime_args inv) = Nat.max 1 (count_dir args0) /\
  (forall k, In k (required_keys sp) ->
     count_env (k ++ "=") (inv_runtime_args inv) = Nat.max 1 (count_env (k ++ "=") args0)) /\
  (exists added, inv_runtime_args inv = args0 ++ added) /\
  assemble root (encode_code code) sp (inv_runtime_args inv) = inv_runtime_args inv.
Proof.
  intros Hr Hb root sp.
  destruct (build_invocation_args h code inv rt m args0 Hr Hb) as [_ Hargs].
  fold root sp in Hargs; rewrite Hargs.
  pose proof (resolved_parent_abs h m) as Habs; fold root in Habs.
  split; [apply assemble_count_dir; exact Habs|].
  split; [intros k Hk; apply assemble_count_env; assumption|].
  split.
  - unfold assemble.
    destruct (add_dir_mapping_extends root args0) as [b1 ->].
    destruct (add_env_args_extends (make_env_updates (encode_code code) sp) (args0 ++ b1))
      as [b2 [-> _]].
    exists (b1 ++ b2); symmetry; apply app_assoc.
  - set (out := assemble root (encode_code code) sp args0).
    unfold assemble at 1.
    assert (Hd : add_dir_mapping root out = out).
    { unfold add_dir_mapping; rewrite has_mapping_count.
      unfold out; rewrite assemble_count_dir by exact Habs.
      replace (0 <? Nat.max 1 (count_dir args0)) with true; [reflexivity|].
      symmetry; apply Nat.ltb_lt; lia. }
    rewrite Hd; apply add_env_args_present.
    apply Forall_forall; intros kv Hin.
    apply count_positive_present; unfold out; rewrite assemble_count_env; auto; [lia|].
    rewrite <- (required_keys_fst (encode_code code)); apply in_map; exact Hin.
Qed.

(** A witness of C5: a caller mapping is kept and not duplicated. *)
Lemma C5_witness :
  exists inv,
    build_invocation (demo_host true "--dir /srv/x::python") "print(1)" = Ok inv /\
    count_dir (inv_runtime_args inv) = 1.
Proof.
  assert (Hr : _resolve_wasm_runtime (demo_host true "--dir /srv/x::python") =
               Ok ("/usr/bin/wasmtime", "/opt/py/python.wasm", ["--dir"; "/srv/x::python"])%string)
    by (vm_compute; reflexivity).
  destruct (build_invocation (demo_host true "--dir /srv/x::python") "print(1)") as [inv|e] eqn:E;
    [|vm_compute in E; discriminate E].
  exists inv; split; [reflexivity|].
  destruct (C5_assembly_adds_no_duplicates _ _ inv _ _ _ Hr E) as [Hc _].
  rewrite Hc; reflexivity.
Defined.

(** C8 (counterexample): with no [lib] tree next to the module, discovery
    is empty and the runtime arguments still carry
    [--env PYTHON_WASM_STDLIB_PATHS=]. *)
Lemma C8_counterexample :
  match build_invocation demo_host_nolib "print(1)" with
  | Ok inv =>
      inv_stdlib_paths inv = [] /\
      count_env "PYTHON_WASM_STDLIB_PATHS=" (inv_runtime_args inv) = 1 /\
      existsb (String.eqb "PYTHON_WASM_STDLIB_PATHS=") (inv_runtime_args inv) = true
  | Err _ => False
  end.
Proof. vm_compute; split; [reflexivity|split; reflexivity]. Qed.

(** [_ensure_env_arg] appends [--env KEY=value] when no injection of [KEY]
    is present, and otherwise only keeps what is there. *)
Lemma ensure_appends (a : list string) (k v : string) :
  env_arg_present (k ++ "=") a = false ->
  _ensure_env_arg a k v = a ++ ["--env"; k ++ "=" ++ v]%string.
Proof. intros H; unfold _ensure_env_arg; rewrite H; reflexivity. Qed.

Lemma ensure_extends (a : list string) (k v : string) :
  exists b, _ensure_env_arg a k v = a ++ b.
Proof.
  unfold _ensure_env_arg; destruct (env_arg_present (k ++ "=") a);
    [exists []; symmetry; apply app_nil_r|eexists; reflexivity].
Qed.

(** C8 (amended): when discovery is empty, the [PYTHON_WASM_STDLIB_PATHS]
    injection is still present (once, or the caller's own); if the caller
    has none, the added one is the pair [--env],
    [PYTHON_WASM_STDLIB_PATHS=] with the empty value.  No [PYTHONPATH]
    injection is added: only the caller's remain. *)
Theorem C8_empty_stdlib_injections (h : host) (code : string) (inv : invocation)
    (rt m : string) (args0 : list string) :
  _resolve_wasm_runtime h = Ok (rt, m, args0) ->
  build_invocation h code = Ok inv ->
  inv_stdlib_paths inv = [] ->
  count_env "PYTHON_WASM_STDLIB_PATHS=" (inv_runtime_args inv)
    = Nat.max 1 (count_env "PYTHON_WASM_STDLIB_PATHS=" args0) /\
  (count_env "PYTHON_WASM_STDLIB_PATHS=" args0 = 0 ->
   exists l1 l2, inv_runtime_args inv = l1 ++ "--env"%string :: "PYTHON_WASM_STDLIB_PATHS="%string :: l2) /\
  count_env "PYTHONPATH=" (inv_runtime_args inv) = count_env "PYTHONPATH=" args0.
Proof.
  intros Hr Hb He.
  destruct (build_invocation_args h code inv rt m args0 Hr Hb) as [_ Hargs].
  rewrite He in Hargs; cbn [String.concat] in Hargs; rewrite Hargs.
  pose proof (resolved_parent_abs h m) as Habs.
  split; [|split].
  - change "PYTHON_WASM_STDLIB_PATHS="%string with ("PYTHON_WASM_STDLIB_PATHS" ++ "=")%string.
    apply assemble_count_env; [exact Habs|].
    cbn; right; right; right; left; reflexivity.
  - intros H0; unfold assemble, add_env_args, make_env_updates.
    cbn [String.eqb app fold_left fst snd].
    lazymatch goal with
    | |- exists l1 l2, _ensure_env_arg (_ensure_env_arg ?a3 ?k ?v) ?k' ?v' = _ =>
        assert (Hc : count_env (k ++ "=") a3 = 0);
        [|destruct (ensure_extends (_ensure_env_arg a3 k v) k' v') as [b Heb]; rewrite Heb;
          rewrite (ensure_appends a3 k v) by (rewrite env_present_count, Hc; reflexivity);
          exists a3, b; rewrite <- app_assoc; reflexivity]
    end.
    count_env_steps.
    rewrite add_dir_mapping_count_env by (auto; reflexivity); exact H0.
  - unfold assemble, add_env_args, make_env_updates.
    cbn [String.eqb app fold_left fst snd].
    count_env_steps.
    apply add_dir_mapping_count_env; [exact Habs|reflexivity].
Qed.

(** C8 witness: the demonstration host without a [lib] tree. *)
Lemma C8_witness :
  exists inv,
    build_invocation demo_host_nolib "print(1)" = Ok inv /\
    count_env "PYTHONPATH=" (inv_runtime_args inv) = 0.
Proof.
  assert (Hr : _resolve_wasm_runtime demo_host_nolib =
               Ok ("/usr/bin/wasmtime", "/opt/py/python.wasm", [])%string)
    by (vm_compute; reflexivity).
  destruct (build_invocation demo_host_nolib "print(1)") as [inv|e] eqn:E;
    [|vm_compute in E; discriminate E].
  exists inv; split; [reflexivity|].
  assert (Hs : inv_stdlib_paths inv = []).
  { destruct (build_invocation_args _ _ inv _ _ _ Hr E) as [-> _]; vm_compute; reflexivity. }
  destruct (C8_empty_stdlib_injections _ _ inv _ _ _ Hr E Hs) as (_ & _ & Hp).
  rewrite Hp; reflexivity.
Defined.

(** A caller mapping given in either form is seen by [_has_mapping]. *)
Lemma has_mapping_intro (args : list string) :
  ((exists l1 t l2, args = l1 ++ "--dir"%string :: t :: l2 /\ endswith t target_suffix = true) \/
   (exists l1 v l2, args = l1 ++ v :: l2 /\ startswith v "--dir=" = true /\
                    endswith (drop_chars 6 v) target_suffix = true)) ->
  _has_mapping args = true.
Proof.
  intros [(l1 & t & l2 & -> & Ht)|(l1 & v & l2 & -> & Hv & Hs)].
  - induction l1 as [|x l1 IH]; simpl.
    + rewrite Ht; reflexivity.
    + destruct (x =? "--dir")%string.
      * destruct (l1 ++ "--dir"%string :: t :: l2) as [|n r] eqn:El;
          [destruct l1; discriminate|].
        destruct (endswith n target_suffix); [reflexivity|exact IH].
      * destruct (startswith x "--dir=" && endswith (drop_chars 6 x) target_suffix);
          [reflexivity|exact IH].
  - assert (Hne : (v =? "--dir")%string = false).
    { destruct (v =? "--dir")%string eqn:E; [|reflexivity].
      apply String.eqb_eq in E; subst v; discriminate Hv. }
    induction l1 as [|x l1 IH]; simpl.
    + rewrite Hne, Hv, Hs; reflexivity.
    + destruct (x =? "--dir")%string.
      * destruct (l1 ++ v :: l2) as [|n r] eqn:El; [destruct l1; discriminate|].
        destruct (endswith n target_suffix); [reflexivity|exact IH].
      * destruct (startswith x "--dir=" && endswith (drop_chars 6 x) target_suffix);
          [reflexivity|exact IH].
Qed.


(** C10: the mapping check looks only at the [::python] suffix.  When the
    caller's arguments hold a [--dir] mapping whose target ends with
    [::python], in either the two-argument or the [--dir=] form, whatever
    host directory it names, the runtime arguments are the caller's
    followed by environment injections only: no [--dir] option and no
    mapping of the module's own root is added. *)
Theorem C10_suffix_mapping_suppresses_root (h : host) (code : string) (inv : invocation)
    (rt m : string) (args0 : list string) :
  _resolve_wasm_runtime h = Ok (rt, m, args0) ->
  build_invocation h code = Ok inv ->
  ((exists l1 t l2, args0 = l1 ++ "--dir"%string :: t :: l2 /\ endswith t target_suffix = true) \/
   (exists l1 v l2, args0 = l1 ++ v :: l2 /\ startswith v "--dir=" = true /\
                    endswith (drop_chars 6 v) target_suffix = true)) ->
  exists added, inv_runtime_args inv = args0 ++ added /\
                Forall (not_dir_arg (resolved_parent h m)) added.
Proof.
  intros Hr Hb Hm.
  destruct (build_invocation_args h code inv rt m args0 Hr Hb) as [_ ->].
  unfold assemble, add_dir_mapping; rewrite (has_mapping_intro args0 Hm).
  destruct (add_env_args_extends
              (make_env_updates (encode_code code) (String.concat ":" (inv_stdlib_paths inv)))
              args0) as [b [Hb' Fb]].
  exists b; split; [exact Hb'|].
  destruct (isabs_cons _ (resolved_parent_abs h m)) as [r Hroot].
  eapply Forall_impl; [|exact Fb].
  intros x [->|([k v] & Hin & ->)]; unfold not_dir_arg; rewrite Hroot.
  - split; [reflexivity|split; [reflexivity|discriminate]].
  - unfold make_env_updates in Hin.
    destruct (String.concat _ _ =? EmptyString)%string; cbn [In app] in Hin;
      repeat destruct Hin as [Hin|Hin]; try contradiction; injection Hin as <- <-;
      cbn [fst snd];
      match goal with |- context [String.eqb ?x _] =>
        assert (Hp : plain_name x) by plain_name_tac;
        destruct (plain_not_opt x EmptyString "-dir" Hp) as [P1 P2];
        destruct (plain_not_opt x EmptyString "-dir=" Hp) as [P3 _]
      end;
      (split; [exact P2|split; [exact P3|discriminate]]).
Qed.

(** C10 witness: a caller mapping of [/srv/other] onto the guest prefix. *)
Lemma C10_witness :
  exists inv added,
    build_invocation (demo_host true "--dir /srv/other::python") "print(1)" = Ok inv /\
    inv_runtime_args inv = ["--dir"; "/srv/other::python"]%string ++ added /\
    Forall (not_dir_arg "/opt/py") added.
Proof.
  assert (Hr : _resolve_wasm_runtime (demo_host true "--dir /srv/other::python") =
               Ok ("/usr/bin/wasmtime", "/opt/py/python.wasm",
                   ["--dir"; "/srv/other::python"])%string)
    by (vm_compute; reflexivity).
  destruct (build_invocation (demo_host true "--dir /srv/other::python") "print(1)")
    as [inv|e] eqn:E; [|vm_compute in E; discriminate E].
  destruct (C10_suffix_mapping_suppresses_root _ _ inv _ _ _ Hr E)
    as [added [Ha Fa]].
  - left; exists [], "/srv/other::python"%string, []; split; reflexivity.
  - exists inv, added; split; [reflexivity|split; [exact Ha|]].
    replace "/opt/py"%string
      with (resolved_parent (demo_host true "--dir /srv/other::python") "/opt/py/python.wasm")
      by (vm_compute; reflexivity).
    exact Fa.
Defined.

(** C9: the guest program arguments are [-c BOOT] or [-I -c BOOT]; the
    flag follows the three-way policy (FORCE decides when set, else
    DISABLE, else off), is off when neither variable is set, and the
    arguments close the command line. *)
Theorem C9_python_args_shapes (h : host) :
  (python_args h = ["-c"; _WASM_BOOTSTRAP_SCRIPT]%string \/
   python_args h = ["-I"; "-c"; _WASM_BOOTSTRAP_SCRIPT]%string) /\
  (python_args h = ["-I"; "-c"; _WASM_BOOTSTRAP_SCRIPT]%string <-> use_isolated h = true) /\
  (use_isolated h = true <->
     match environ_get h "PYTHON_WASM_FORCE_ISOLATED" with
     | Some f => f = "1"%string
     | None => match environ_get h "PYTHON_WASM_DISABLE_ISOLATED" with
               | Some d => d <> "1"%string
               | None => False
               end
     end) /\
  (environ_get h "PYTHON_WASM_FORCE_ISOLATED" = None ->
   environ_get h "PYTHON_WASM_DISABLE_ISOLATED" = None ->
   python_args h = ["-c"; _WASM_BOOTSTRAP_SCRIPT]%string) /\
  (forall code inv, build_invocation h code = Ok inv ->
   exists pre, inv_cmd inv = pre ++ python_args h).
Proof.
  unfold python_args; split; [|split; [|split; [|split]]].
  - destruct (use_isolated h); [right|left]; reflexivity.
  - destruct (use_isolated h); split; intros H; try reflexivity; discriminate H.
  - unfold use_isolated.
    destruct (environ_get h "PYTHON_WASM_FORCE_ISOLATED") as [f|].
    + rewrite String.eqb_eq; tauto.
    + destruct (environ_get h "PYTHON_WASM_DISABLE_ISOLATED") as [d|].
      * destruct (d =? "1")%string eqn:E; cbn [negb].
        -- apply String.eqb_eq in E; split; [discriminate|contradiction].
        -- apply String.eqb_neq in E; tauto.
      * split; [discriminate|contradiction].
  - intros Hf Hd; unfold use_isolated; rewrite Hf, Hd; reflexivity.
  - intros code inv Hb; unfold build_invocation in Hb.
    destruct (_resolve_wasm_runtime h) as [[[rt m] a]|e]; [|discriminate Hb].
    injection Hb as <-; cbn [inv_cmd].
    match goal with |- exists pre, ?x :: ?y :: ?ra ++ ?m :: ?pa = _ =>
      exists (x :: y :: ra ++ [m]); cbn [app]; rewrite <- app_assoc; reflexivity end.
Qed.

Lemma which_loop_access (h : host) (cmd : string) (dirs seen : list string) (p : string) :
  which_loop h cmd dirs seen = Some p -> access_check h p = true.
Proof.
  revert seen; induction dirs as [|d dirs IH]; intros seen; cbn [which_loop]; [discriminate|].
  destruct (existsb (String.eqb d) seen); [apply IH|].
  destruct (access_check h (path_join d cmd)) eqn:E; [|apply IH].
  intros H; injection H as <-; exact E.
Qed.

Lemma which_access (h : host) (cmd p : string) :
  which h cmd = Some p -> access_check h p = true.
Proof.
  unfold which; destruct (_ =? EmptyString)%string; [discriminate|apply which_loop_access].
Qed.

Lemma first_default_match (h : host) (ps : list string) :
  first_default h ps =
  first_match (map (fun p => if isfile h p && access_x h p then Some p else None) ps).
Proof.
  induction ps as [|p ps IH]; [reflexivity|cbn [first_default map first_match]].
  destruct (isfile h p && access_x h p); [reflexivity|exact IH].
Qed.

Lemma resolve_ok_runtime (h : host) (rt m : string) (a : list string) :
  _resolve_wasm_runtime h = Ok (rt, m, a) -> resolve_runtime_path h = Some rt.
Proof.
  unfold _resolve_wasm_runtime, bind.
  destruct (resolve_runtime_path h) as [r|]; [|discriminate].
  intros H; repeat match type of H with
                   | context [match ?x with _ => _ end] => destruct x
                   end; try discriminate H; injection H as <- _ _; reflexivity.
Qed.

(** C7: the runtime is the first match among the configured value, the
    default name [wasmtime] and the four well-known locations; none is a
    fatal [RuntimeError].  A value with a directory part must be an
    executable file at its absolute path, a bare name goes through the
    [PATH] search, which only yields executables. *)
Theorem C7_runtime_lookup_order (h : host) :
  resolve_runtime_path h = first_match (runtime_candidates h) /\
  (resolve_runtime_path h = None ->
   _resolve_wasm_runtime h = Err (RuntimeError MSG_NO_RUNTIME)) /\
  (forall rt m a, _resolve_wasm_runtime h = Ok (rt, m, a) ->
   first_match (runtime_candidates h) = Some rt) /\
  (forall e, e <> EmptyString -> isabs e || contains_char SLASH e = true ->
   _locate_runtime h (Some e) =
   if isfile h (abspath h e) && access_x h (abspath h e) then Some (abspath h e) else None) /\
  (forall e, e <> EmptyString -> isabs e || contains_char SLASH e = false ->
   _locate_runtime h (Some e) = which h e /\
   forall p, which h e = Some p -> access_check h p = true).
Proof.
  assert (Hfm : resolve_runtime_path h = first_match (runtime_candidates h)).
  { unfold resolve_runtime_path, runtime_candidates.
    destruct (_locate_runtime h (environ_get h "PYTHON_WASM_RUNTIME")); [reflexivity|].
    destruct (_locate_runtime h (Some "wasmtime"%string)); [reflexivity|].
    apply first_default_match. }
  split; [exact Hfm|split; [|split; [|split]]].
  - intros H; unfold _resolve_wasm_runtime; rewrite H; reflexivity.
  - intros rt m a H; rewrite <- Hfm; exact (resolve_ok_runtime h rt m a H).
  - intros e He Hs; unfold _locate_runtime.
    apply String.eqb_neq in He; rewrite He, Hs; reflexivity.
  - intros e He Hs; unfold _locate_runtime.
    apply String.eqb_neq in He; rewrite He, Hs; split; [reflexivity|apply which_access].
Qed.

(** [shlex.split] fails only with [ValueError]. *)
Lemma shlex_go_err (cs : list ascii) (m : lexmode) (tok : list ascii) (acc : list string)
    (e : pyexc) :
  shlex_go cs m tok acc = Err e -> exists msg, e = ValueError msg.
Proof.
  revert m tok acc; induction cs as [|c cs IH]; intros m tok acc.
  - destruct m as [| |q|[q|]]; cbn [shlex_go]; intros H; try discriminate H;
      injection H as <-; eexists; reflexivity.
  - destruct m as [| |q|[q|]]; cbn [shlex_go];
      repeat match goal with |- context [if ?b then _ else _] => destruct b end;
      apply IH.
Qed.

Lemma shlex_split_err (s : string) (e : pyexc) :
  shlex_split s = Err e -> exists msg, e = ValueError msg.
Proof. apply shlex_go_err. Qed.

(** C4 (counterexample): an unreadable module that exists, is no
    directory and starts with the magic bytes is refused; a valid module
    with an unbalanced quote in [PYTHON_WASM_RUNTIME_ARGS] is refused too,
    with a [ValueError]. *)
Lemma C4_counterexample :
  let h0 := demo_host false EmptyString in
  let h1 := demo_host true "--env 'X=1" in
  environ_get h0 "PYTHON_WASM_PATH" = Some "/opt/py/python.wasm"%string /\
  path_exists h0 "/opt/py/python.wasm" = true /\
  isdir h0 "/opt/py/python.wasm" = false /\
  file_head4 h0 "/opt/py/python.wasm" = Some WASM_MAGIC /\
  _resolve_wasm_runtime h0 = Err (RuntimeError MSG_UNREADABLE) /\
  module_invalid h1 = false /\
  _resolve_wasm_runtime h1 = Err (ValueError "No closing quotation").
Proof. vm_compute; repeat split. Qed.

(** C4 (amended): once a runtime is found, resolution raises a
    [RuntimeError] exactly when the module path is unset or empty, does
    not exist, is a directory, cannot be read, or does not start with
    [\0asm]; otherwise it returns the module's absolute path together with
    the split [PYTHON_WASM_RUNTIME_ARGS], or the [ValueError] of that
    split.  Every such error is raised by [execute_python] before any
    process is started. *)
Theorem C4_module_validation (h : host) (rt : string) :
  resolve_runtime_path h = Some rt ->
  (module_invalid h = true <-> exists msg, _resolve_wasm_runtime h = Err (RuntimeError msg)) /\
  (module_invalid h = false ->
   exists m, environ_get h "PYTHON_WASM_PATH" = Some m /\
     _resolve_wasm_runtime h =
     match shlex_split (runtime_args_src h) with
     | Ok extra => Ok (rt, abspath h m, extra)
     | Err e => Err e
     end) /\
  (forall e w code timeout_ms max_output_bytes ch elapsed_ms,
   _resolve_wasm_runtime h = Err e ->
   execute_python h w code timeout_ms max_output_bytes ch elapsed_ms = Err e).
Proof.
  intros Hrt; split; [|split].
  - unfold module_invalid, _resolve_wasm_runtime; rewrite Hrt.
    destruct (environ_get h "PYTHON_WASM_PATH") as [m|];
      [|split; [intros _; eexists; reflexivity|reflexivity]].
    destruct (m =? EmptyString)%string, (path_exists h m), (isdir h m);
      cbn [orb negb]; try (split; [intros _; eexists; reflexivity|reflexivity]).
    destruct (read4 h m) as [mg|]; [|split; [intros _; eexists; reflexivity|reflexivity]].
    destruct (bytes_eqb mg WASM_MAGIC); cbn [negb];
      [|split; [intros _; eexists; reflexivity|reflexivity]].
    unfold bind; destruct (shlex_split _) as [x|e] eqn:E.
    + split; [discriminate|intros [msg H]; discriminate H].
    + split; [discriminate|intros [msg H]; injection H as ->].
      destruct (shlex_split_err _ _ E) as [msg' H']; discriminate H'.
  - unfold module_invalid, _resolve_wasm_runtime, runtime_args_src; rewrite Hrt.
    destruct (environ_get h "PYTHON_WASM_PATH") as [m|]; [|discriminate].
    intros Hv; exists m; split; [reflexivity|].
    destruct (m =? EmptyString)%string, (path_exists h m), (isdir h m);
      cbn [orb negb] in *; try discriminate Hv.
    destruct (read4 h m) as [mg|]; [|discriminate Hv].
    destruct (bytes_eqb mg WASM_MAGIC); [reflexivity|discriminate Hv].
  - intros e w code t mx ch el He; unfold execute_python, build_invocation.
    rewrite He; reflexivity.
Qed.

(** C4 witness: the demonstration host with a readable module. *)
Lemma C4_witness :
  exists m, _resolve_wasm_runtime (demo_host true EmptyString) =
            Ok ("/usr/bin/wasmtime"%string, abspath (demo_host true EmptyString) m, []).
Proof.
  assert (Hrt : resolve_runtime_path (demo_host true EmptyString) =
                Some "/usr/bin/wasmtime"%string) by (vm_compute; reflexivity).
  assert (Hv : module_invalid (demo_host true EmptyString) = false) by (vm_compute; reflexivity).
  destruct (C4_module_validation _ _ Hrt) as [_ [Hok _]].
  destruct (Hok Hv) as [m [_ Hm]].
  exists m; rewrite Hm; reflexivity.
Defined.








Lemma fold_add_fst (l gp seen : list string) :
  fst (fold_left _add l (gp, seen)) = gp ++ dedup_acc seen l.
Proof.
  revert gp seen; induction l as [|x l IH]; intros gp seen; cbn [fold_left dedup_acc].
  - rewrite app_nil_r; reflexivity.
  - unfold _add at 2; destruct (existsb (String.eqb x) seen); [apply IH|].
    rewrite IH, <- app_assoc; reflexivity.
Qed.

Lemma fold_if_add (P : string -> bool) (f : string -> string) (l : list string) st :
  fold_left (fun st s => if P s then _add st (f s) else st) l st =
  fold_left _add (map f (filter P l)) st.
Proof.
  revert st; induction l as [|x l IH]; intros st; [reflexivity|cbn [fold_left filter]].
  destruct (P x); [cbn [map fold_left]|]; apply IH.
Qed.

Lemma fold_map_add (f : string -> string) (l : list string) st :
  fold_left (fun st s => _add st (f s)) l st = fold_left _add (map f l) st.
Proof.
  revert st; induction l as [|x l IH]; intros st; [reflexivity|apply IH].
Qed.

Lemma dedup_in (seen l : list string) (x : string) :
  In x (dedup_acc seen l) <-> In x l /\ ~ In x seen.
Proof.
  revert seen; induction l as [|y l IH]; intros seen; cbn [dedup_acc In]; [tauto|].
  destruct (existsb (String.eqb y) seen) eqn:E.
  - rewrite IH; apply existsb_exists in E as [z [Hz Hyz]]; apply String.eqb_eq in Hyz; subst z.
    split; [tauto|intros [[<-|Hl] Hn]; [contradiction|tauto]].
  - cbn [In]; rewrite IH; cbn [In].
    assert (~ In y seen) as Hy.
    { intros Hi; assert (existsb (String.eqb y) seen = true) as Ht
        by (apply existsb_exists; exists y; split; [exact Hi|apply String.eqb_refl]).
      congruence. }
    split.
    + intros [<-|[Hl Hn]]; [tauto|split; [right; exact Hl|tauto]].
    + intros [[<-|Hl] Hn]; [left; reflexivity|].
      destruct (String.eqb_spec y x) as [<-|Hne]; [left; reflexivity|right; split; [exact Hl|]].
      intros [Hyx|Hs]; [exact (Hne Hyx)|exact (Hn Hs)].
Qed.

Lemma dedup_nodup (seen l : list string) : NoDup (dedup_acc seen l).
Proof.
  revert seen; induction l as [|y l IH]; intros seen; cbn [dedup_acc]; [constructor|].
  destruct (existsb (String.eqb y) seen); [apply IH|].
  constructor; [|apply IH].
  rewrite dedup_in; cbn [In]; tauto.
Qed.

(** C6: no [lib] directory, or no version directory in it, gives the
    empty list.  Otherwise the version directory found matches the
    pattern, and the discovery is, in order and each once, the guest path
    of that directory, its [lib-dynload] and [site-packages] when present,
    and the [python*.zip] bundles in sorted order. *)
Theorem C6_discovery_order (h : host) (python_root guest_prefix : string) :
  let lib_root := path_join python_root "lib" in
  (isdir h lib_root = false -> _discover_stdlib_paths h python_root guest_prefix = []) /\
  (version_dir h lib_root = None -> _discover_stdlib_paths h python_root guest_prefix = []) /\
  (forall vname, isdir h lib_root = true -> version_dir h lib_root = Some vname ->
   let found := _discover_stdlib_paths h python_root guest_prefix in
   let cands := discovery_candidates h python_root guest_prefix vname in
   isdir h (path_join lib_root vname) = true /\ version_fullmatch vname = true /\
   found = dedup_acc [] cands /\ NoDup found /\
   (forall p, In p found <-> In p cands) /\
   hd_error found = Some (guest_prefix ++ "/lib/" ++ vname)%string).
Proof.
  cbv zeta; split; [|split].
  - intros H; unfold _discover_stdlib_paths; rewrite H; reflexivity.
  - intros H; unfold _discover_stdlib_paths; fold (version_dir h (path_join python_root "lib")).
    rewrite H; destruct (isdir h (path_join python_root "lib")); reflexivity.
  - intros vname Hl Hv.
    assert (Hf : _discover_stdlib_paths h python_root guest_prefix =
                 dedup_acc [] (discovery_candidates h python_root guest_prefix vname)).
    { unfold _discover_stdlib_paths; fold (version_dir h (path_join python_root "lib")).
      rewrite Hl, Hv; cbn [negb].
      rewrite fold_if_add, fold_map_add.
      change (_add ([], []) (guest_prefix ++ "/lib/" ++ vname)%string)
        with (fold_left _add [guest_prefix ++ "/lib/" ++ vname]%string ([], [])).
      rewrite <- !fold_left_app, fold_add_fst; reflexivity. }
    unfold version_dir in Hv; apply find_some in Hv as [_ Hv].
    apply andb_prop in Hv as [Hd Hm].
    split; [exact Hd|split; [exact Hm|split; [exact Hf|split; [|split]]]]; rewrite Hf.
    + apply dedup_nodup.
    + intros p; rewrite dedup_in; cbn [In]; tauto.
    + reflexivity.
Qed.

(* ------------------------------------------------------------------ *)
(** ** [int] and [str] on decimal strings *)

Lemma pos_size_bound (p : positive) : (Npos p < 2 ^ N.of_nat (Pos.size_nat p))%N.
Proof.
  induction p as [p IH|p IH|]; cbn [Pos.size_nat].
  - rewrite Nat2N.inj_succ, N.pow_succ_r'. change (Npos p~1) with (2 * Npos p + 1)%N. lia.
  - rewrite Nat2N.inj_succ, N.pow_succ_r'. change (Npos p~0) with (2 * Npos p)%N. lia.
  - cbn; lia.
Qed.

Lemma size_bound (n : N) : (n < 2 ^ N.of_nat (N.size_nat n))%N.
Proof. destruct n as [|p]; [cbn; lia|apply pos_size_bound]. Qed.

Lemma digit_char (k : N) :
  (k < 10)%N ->
  is_digit (ascii_of_N (48 + k)) = true /\ digit_val (ascii_of_N (48 + k)) = Z.of_N k /\
  (nat_of_ascii (ascii_of_N (48 + k)) < 128)%nat.
Proof.
  intros Hk.
  assert (k = 0 \/ k = 1 \/ k = 2 \/ k = 3 \/ k = 4 \/ k = 5 \/ k = 6 \/ k = 7 \/ k = 8 \/ k = 9)%N
    as Hc by lia.
  repeat destruct Hc as [->|Hc]; [..|subst k]; vm_compute; repeat split; lia.
Qed.

Lemma dec_digits_rev_ok (f : nat) (n : N) :
  (n < 2 ^ N.of_nat f)%N ->
  dec_digits_rev (S f) n <> [] /\
  Forall (fun c => is_digit c = true /\ (nat_of_ascii c < 128)%nat) (dec_digits_rev (S f) n) /\
  digits_value (rev (dec_digits_rev (S f) n)) 0 = Z.of_N n.
Proof.
  revert n; induction f as [|f IH]; intros n Hn.
  - simpl in Hn; assert (n = 0%N) as -> by lia; vm_compute; repeat split; [discriminate|].
    repeat constructor; lia.
  - change (dec_digits_rev (S (S f)) n) with
      (ascii_of_N (48 + n mod 10) :: (if (n <? 10)%N then [] else dec_digits_rev (S f) (n / 10))).
    pose proof (digit_char (n mod 10)) as (Hd & Hv & Ha); [apply N.mod_lt; lia|].
    rewrite Nat2N.inj_succ, N.pow_succ_r' in Hn.
    split; [discriminate|].
    destruct (n <? 10)%N eqn:E.
    + apply N.ltb_lt in E; split; [constructor; [split; assumption|constructor]|].
      unfold digits_value; cbn [rev app fold_left]. rewrite Hv, N.mod_small by exact E; reflexivity.
    + apply N.ltb_ge in E.
      destruct (IH (n / 10)%N) as (_ & Hf & Hval).
      { apply N.Div0.div_lt_upper_bound; lia. }
      split; [constructor; [split; assumption|exact Hf]|].
      unfold digits_value in *; cbn [rev]; rewrite fold_left_app, Hval; cbn [fold_left].
      rewrite Hv. pose proof (N.div_mod n 10) as Hdm. lia.
Qed.

Lemma dec_digits_rev_length (f k : nat) (n : N) :
  (n < 10 ^ N.of_nat (S k))%N -> (List.length (dec_digits_rev f n) <= S k)%nat.
Proof.
  revert n k; induction f as [|f IH]; intros n k Hn; cbn [dec_digits_rev List.length]; [lia|].
  destruct (n <? 10)%N eqn:E; cbn [List.length]; [lia|].
  apply N.ltb_ge in E; destruct k as [|k].
  - simpl in Hn; lia.
  - apply le_n_S, IH. rewrite Nat2N.inj_succ, N.pow_succ_r' in Hn.
    apply N.Div0.div_lt_upper_bound; lia.
Qed.

Lemma dec_digits_ok (n : N) :
  dec_digits n <> [] /\
  Forall (fun c => is_digit c = true /\ (nat_of_ascii c < 128)%nat) (dec_digits n) /\
  digits_value (dec_digits n) 0 = Z.of_N n.
Proof.
  unfold dec_digits; destruct (dec_digits_rev_ok (N.size_nat n) n (size_bound n)) as (H1 & H2 & H3).
  split; [|split; [apply Forall_rev, H2|rewrite H3; reflexivity]].
  intros H; apply H1; rewrite <- (rev_involutive (dec_digits_rev _ _)), H; reflexivity.
Qed.

Lemma scan_all_digits (ds : list ascii) (acc : Z) (n : nat) :
  Forall (fun c => is_digit c = true) ds ->
  scan_digits ds false acc n = Some (digits_value ds acc, (n + List.length ds)%nat, []).
Proof.
  revert acc n; induction ds as [|c ds IH]; intros acc n Hf; cbn [scan_digits].
  - rewrite Nat.add_0_r; reflexivity.
  - inversion Hf as [|? ? Hc Hr]; subst; rewrite Hc, IH by exact Hr.
    cbn [List.length]; rewrite Nat.add_succ_r; reflexivity.
Qed.

(** The value [scan_digits] reads stays below [10] to the number of
    digits it counted. *)
Lemma scan_digits_bound (cs : list ascii) (pu : bool) (acc : Z) (n : nat) v n' rest :
  (0 <= acc < 10 ^ Z.of_nat n)%Z ->
  scan_digits cs pu acc n = Some (v, n', rest) ->
  (0 <= v < 10 ^ Z.of_nat n')%Z.
Proof.
  revert pu acc n; induction cs as [|c cs IH]; intros pu acc n Hacc; cbn [scan_digits].
  - destruct pu; [discriminate|intros H; injection H as <- <- _; exact Hacc].
  - destruct (is_digit c) eqn:Ed.
    + apply IH.
      unfold is_digit, digit_val in *; apply andb_true_iff in Ed as [E1 E2].
      apply Nat.leb_le in E1; apply Nat.leb_le in E2.
      rewrite Nat2Z.inj_succ, Z.pow_succ_r by lia; lia.
    + destruct (Ascii.eqb c "_"); [destruct pu; [discriminate|apply IH; exact Hacc]|].
      destruct pu; [discriminate|intros H; injection H as <- <- _; exact Hacc].
Qed.

Lemma ascii_str_transform (cs : list ascii) :
  forallb (fun c => nat_of_ascii c <? 128) cs = true -> transform_decimal_space cs = cs.
Proof. unfold transform_decimal_space; intros ->; reflexivity. Qed.

Lemma digits_length_bound (v : Z) :
  (Z.abs v < 10 ^ 4300)%Z -> (List.length (dec_digits (Z.abs_N v)) <= 4300)%nat.
Proof.
  intros Hv; unfold dec_digits; rewrite length_rev.
  apply (dec_digits_rev_length _ 4299).
  apply N2Z.inj_lt; rewrite Zabs2N.id_abs, N2Z.inj_pow; exact Hv.
Qed.

Lemma digit_not_special (c : ascii) :
  is_digit c = true ->
  is_c_space c = false /\ Ascii.eqb c "_" = false /\ Ascii.eqb c "+" = false /\
  Ascii.eqb c "-" = false.
Proof.
  destruct c as [[] [] [] [] [] [] [] []]; vm_compute; intros Hd;
    first [discriminate Hd | repeat split].
Qed.

Lemma long_from_string_digits (neg : bool) (c : ascii) (ds : list ascii) :
  Forall (fun c => is_digit c = true) (c :: ds) ->
  (List.length (c :: ds) <= int_max_str_digits)%nat ->
  long_from_string ((if neg then ["-"%char] else []) ++ c :: ds) =
  Some ((if neg then (-1) else 1) * digits_value (c :: ds) 0)%Z.
Proof.
  intros Hf Hl.
  inversion Hf as [|? ? Hc _]; subst.
  destruct (digit_not_special c Hc) as (Hs & Hu & Hp & Hm).
  pose proof (scan_all_digits (c :: ds) 0 0 Hf) as Hscan; cbn [Nat.add] in Hscan.
  unfold long_from_string; destruct neg; cbn [app].
  - change (skip_spaces ("-"%char :: c :: ds)) with ("-"%char :: c :: ds).
    cbn -[scan_digits skip_spaces int_max_str_digits]. rewrite Hu, Hscan; cbn [List.length Nat.eqb orb skip_spaces];
    match goal with |- (if ?b then None else _) = _ => destruct b eqn:E end;
    [first [apply Nat.leb_le in E | apply Nat.ltb_lt in E]; cbn [List.length] in Hl; lia|reflexivity].
  - cbn [skip_spaces]; rewrite Hs.
    cbn -[scan_digits skip_spaces int_max_str_digits]. rewrite Hp, Hm, Hu, Hscan; cbn [List.length Nat.eqb orb skip_spaces];
    match goal with |- (if ?b then None else _) = _ => destruct b eqn:E end;
    [first [apply Nat.leb_le in E | apply Nat.ltb_lt in E]; cbn [List.length] in Hl; lia|reflexivity].
Qed.

(** [int(str(v))] is [v]. *)
Lemma py_int_str (v : Z) (s : string) : py_str_int v = Ok s -> py_int s = Some v.
Proof.
  unfold py_str_int.
  destruct (dec_digits_ok (Z.abs_N v)) as (Hne & Hf & Hval).
  destruct (int_max_str_digits <? List.length (dec_digits (Z.abs_N v)))%nat eqn:El;
    [discriminate|intros H; injection H as <-].
  apply Nat.ltb_ge in El.
  unfold py_int; rewrite list_ascii_of_string_of_list_ascii, ascii_str_transform.
  2:{ rewrite forallb_app; apply andb_true_iff; split;
      [destruct (v <? 0)%Z; reflexivity|].
      apply forallb_forall; intros c Hc; apply Nat.ltb_lt.
      exact (proj2 (proj1 (Forall_forall _ _) Hf c Hc)). }
  destruct (dec_digits (Z.abs_N v)) as [|c ds] eqn:Eds; [contradiction|].
  rewrite (long_from_string_digits (v <? 0)%Z c ds); [|eapply Forall_impl; [|exact Hf]; intros x [Hx _]; exact Hx|exact El].
  rewrite Hval, Zabs2N.id_abs; f_equal.
  destruct (v <? 0)%Z eqn:Ev; [apply Z.ltb_lt in Ev|apply Z.ltb_ge in Ev]; lia.
Qed.

(** Whatever [int] accepts has at most 4300 digits. *)
Lemma long_from_string_bound (cs : list ascii) (v : Z) :
  long_from_string cs = Some v -> (Z.abs v < 10 ^ 4300)%Z.
Proof.
  unfold long_from_string.
  set (cs0 := skip_spaces cs).
  assert (forall sg cs1, (sg = 1 \/ sg = -1)%Z ->
    match cs1 with
    | c :: _ => if Ascii.eqb c "_" then None else
        match scan_digits cs1 false 0 0 with
        | None => None
        | Some (v, n, rest) =>
            if (n =? 0) || (int_max_str_digits <? n) then None
            else match skip_spaces rest with [] => Some (sg * v)%Z | _ => None end
        end
    | [] => None
    end = Some v -> (Z.abs v < 10 ^ 4300)%Z) as Hgen.
  { intros sg cs1 Hsg; destruct cs1 as [|c cs1]; [discriminate|].
    destruct (Ascii.eqb c "_"); [discriminate|].
    destruct (scan_digits (c :: cs1) false 0 0) as [[[v0 n] rest]|] eqn:Es; [|discriminate].
    destruct ((n =? 0) || (int_max_str_digits <? n)) eqn:En; [discriminate|].
    apply orb_false_iff in En as [_ En]; apply Nat.ltb_ge in En.
    destruct (skip_spaces rest); [|discriminate].
    intros H; injection H as <-.
    assert (0 <= v0 < 10 ^ Z.of_nat n)%Z as Hb.
    { eapply scan_digits_bound; [|exact Es]; cbn; lia. }
    assert (10 ^ Z.of_nat n <= 10 ^ 4300)%Z.
    { apply Z.pow_le_mono_r; [lia|]. unfold int_max_str_digits in En; lia. }
    revert Hb H; generalize (10 ^ Z.of_nat n)%Z, (10 ^ 4300)%Z; intros B1 B2 Hb H.
    destruct Hsg as [-> | ->]; lia. }
  destruct cs0 as [|c cs1].
  - apply (Hgen 1%Z []); lia.
  - destruct (Ascii.eqb c "+"); [apply Hgen; lia|].
    destruct (Ascii.eqb c "-"); [apply Hgen; lia|apply (Hgen 1%Z (c :: cs1)); lia].
Qed.

Lemma py_str_int_bounded (v : Z) :
  (Z.abs v < 10 ^ 4300)%Z -> exists s, py_str_int v = Ok s.
Proof.
  intros Hv; unfold py_str_int.
  destruct (int_max_str_digits <? List.length (dec_digits (Z.abs_N v)))%nat eqn:E;
    [|eexists; reflexivity].
  apply Nat.ltb_lt in E; pose proof (digits_length_bound v Hv); unfold int_max_str_digits in E; lia.
Qed.

Lemma int_from_env_printable (h : host) (name : string) (d : Z) :
  (Z.abs d < 10 ^ 4300)%Z -> (Z.abs (Config._int_from_env h name d) < 10 ^ 4300)%Z.
Proof.
  intros Hd; unfold Config._int_from_env.
  destruct (environ_get h name) as [raw|]; [|exact Hd].
  unfold py_int; destruct (long_from_string _) as [v|] eqn:E; [|exact Hd].
  exact (long_from_string_bound _ _ E).
Qed.

Lemma skip_spaces_allowed (cs : list ascii) :
  forallb int_char_allowed (skip_spaces cs) = true -> forallb int_char_allowed cs = true.
Proof.
  induction cs as [|c cs IH]; cbn [skip_spaces]; [tauto|].
  destruct (is_c_space c) eqn:E; [|tauto].
  intros H; cbn [forallb]; rewrite (IH H), andb_true_r.
  unfold int_char_allowed; rewrite E, orb_true_r; reflexivity.
Qed.

Lemma scan_digits_allowed (cs : list ascii) (pu : bool) (acc : Z) (n : nat) v n' rest :
  scan_digits cs pu acc n = Some (v, n', rest) ->
  forallb int_char_allowed rest = true -> forallb int_char_allowed cs = true.
Proof.
  revert pu acc n; induction cs as [|c cs IH]; intros pu acc n; cbn [scan_digits].
  - intros _ _; reflexivity.
  - destruct (is_digit c) eqn:Ed.
    { intros H Hr; cbn [forallb]; rewrite (IH _ _ _ H Hr), andb_true_r.
      unfold int_char_allowed; rewrite Ed; reflexivity. }
    destruct (Ascii.eqb c "_") eqn:Eu.
    + destruct pu; [discriminate|intros H Hr; cbn [forallb]; rewrite (IH _ _ _ H Hr), andb_true_r].
      unfold int_char_allowed; rewrite Eu, orb_true_r; reflexivity.
    + destruct pu; [discriminate|intros H; injection H as _ _ <-; tauto].
Qed.

(** [int] reads only digits, ASCII spaces, signs and underscores. *)
Lemma long_from_string_allowed (cs : list ascii) (v : Z) :
  long_from_string cs = Some v -> forallb int_char_allowed cs = true.
Proof.
  unfold long_from_string; intros H; apply skip_spaces_allowed; revert H.
  set (cs0 := skip_spaces cs).
  assert (forall sg cs1,
    match cs1 with
    | c :: _ => if Ascii.eqb c "_" then None else
        match scan_digits cs1 false 0 0 with
        | None => None
        | Some (v, n, rest) =>
            if (n =? 0) || (int_max_str_digits <? n) then None
            else match skip_spaces rest with [] => Some (sg * v)%Z | _ => None end
        end
    | [] => None
    end = Some v -> forallb int_char_allowed cs1 = true) as Hgen.
  { intros sg cs1; destruct cs1 as [|c cs1]; [discriminate|].
    destruct (Ascii.eqb c "_"); [discriminate|].
    destruct (scan_digits (c :: cs1) false 0 0) as [[[v0 n] rest]|] eqn:Es; [|discriminate].
    destruct ((n =? 0) || (int_max_str_digits <? n)); [discriminate|].
    destruct (skip_spaces rest) eqn:Er; [|discriminate]; intros _.
    apply (scan_digits_allowed _ _ _ _ _ _ _ Es), skip_spaces_allowed; rewrite Er; reflexivity. }
  destruct cs0 as [|c cs1]; [apply (Hgen 1%Z [])|].
  destruct (Ascii.eqb c "+") eqn:Ep.
  - intros H; cbn [forallb]; rewrite (Hgen _ _ H); unfold int_char_allowed; rewrite Ep, !orb_true_r;
      reflexivity.
  - destruct (Ascii.eqb c "-") eqn:Em; [|apply (Hgen 1%Z (c :: cs1))].
    intros H; cbn [forallb]; rewrite (Hgen _ _ H); unfold int_char_allowed; rewrite Em, !orb_true_r;
      reflexivity.
Qed.

Lemma qmark_not_allowed : int_char_allowed "?" = false.
Proof. reflexivity. Qed.

(** An ASCII character [int] cannot read survives the transformation to
    ASCII, or the transformation ends in ['?']. *)
Lemma transform_keeps_bad (cs : list ascii) (c : ascii) :
  In c cs -> (nat_of_ascii c < 128)%nat -> int_char_allowed c = false ->
  exists c', In c' (transform_decimal_space cs) /\ int_char_allowed c' = false.
Proof.
  intros Hin Hc Hb; unfold transform_decimal_space.
  destruct (forallb (fun c => nat_of_ascii c <? 128) cs); [exists c; tauto|].
  induction cs as [|x cs IH]; [destruct Hin|]; cbn [transform_loop].
  destruct (nat_of_ascii x <? 127) eqn:E1.
  - destruct Hin as [->|Hin]; [exists c; split; [left|]; auto|].
    destruct (IH Hin) as (c' & ? & ?); exists c'; split; [right|]; auto.
  - destruct (is_latin1_space x) eqn:E2; [|exists "?"%char; split; [left; reflexivity|reflexivity]].
    destruct Hin as [->|Hin].
    + unfold is_latin1_space in E2; apply orb_true_iff in E2 as [E2|E2];
        apply Nat.eqb_eq in E2; lia.
    + destruct (IH Hin) as (c' & ? & ?); exists c'; split; [right|]; auto.
Qed.

Lemma truncate_length_bound (s : pybytes) (cap : Z) :
  (Z.of_nat (List.length (_truncate s cap)) <= Z.max cap 15)%Z.
Proof.
  unfold _truncate.
  destruct (Z.of_nat (List.length s) <=? cap)%Z eqn:E.
  - apply Z.leb_le in E; pose proof (decode_replace_length s); lia.
  - apply Z.leb_gt in E.
    pose proof (decode_replace_length
      (firstn (Z.to_nat (Z.max 0 (cap - 32))) s ++ TRUNCATION_SUFFIX)) as H.
    rewrite length_app, length_firstn in H; simpl in H; lia.
Qed.

(* ------------------------------------------------------------------ *)
(** ** Properties of the settings and of the [/execute] route *)

(** X1: an environment value written as [str(v)] is read back as [v] by
    [_int_from_env], whatever the default. *)
Theorem int_from_env_reads_str (h : host) (name : string) (default v : Z) (s : string) :
  environ_get h name = Some s -> py_str_int v = Ok s -> Config._int_from_env h name default = v.
Proof.
  intros He Hs; unfold Config._int_from_env; rewrite He, (py_int_str _ _ Hs); reflexivity.
Qed.

Lemma int_from_env_reads_str_witness :
  Config._int_from_env (demo_env_host [("MAX_OUTPUT_BYTES", "-42")]%string)
    "MAX_OUTPUT_BYTES" 1000000 = (-42)%Z.
Proof.
  apply (int_from_env_reads_str _ _ _ (-42) "-42"); vm_compute; reflexivity.
Defined.

(** X2: an environment value holding an ASCII character other than a
    digit, an ASCII space, a sign or an underscore (["1.5"], ["1e3"],
    ["0x10"], ["64MB"]) makes [_int_from_env] return the default. *)
Theorem int_from_env_malformed_default (h : host) (name : string) (default : Z)
    (raw : string) (c : ascii) :
  environ_get h name = Some raw -> In c (list_ascii_of_string raw) ->
  (nat_of_ascii c < 128)%nat -> int_char_allowed c = false ->
  Config._int_from_env h name default = default.
Proof.
  intros He Hin Hc Hb; unfold Config._int_from_env, py_int; rewrite He.
  destruct (long_from_string _) as [v|] eqn:E; [|reflexivity].
  destruct (transform_keeps_bad _ _ Hin Hc Hb) as (c' & Hin' & Hb').
  pose proof (long_from_string_allowed _ _ E) as Ha.
  rewrite forallb_forall in Ha; rewrite (Ha c' Hin') in Hb'; discriminate.
Qed.

Lemma int_from_env_malformed_default_witness :
  Config._int_from_env (demo_env_host [("MAX_EXEC_TIMEOUT_MS", "1.5")]%string)
    "MAX_EXEC_TIMEOUT_MS" 5000 = 5000%Z.
Proof.
  apply (int_from_env_malformed_default _ _ _ "1.5" "."); [reflexivity|cbn; tauto|cbn; lia|reflexivity].
Defined.

(** X3: with the settings read from the environment, a request whose
    [timeout_ms] exceeds [max_exec_timeout_ms] is always answered with a
    422 [HTTPException] whose detail names the maximum in decimal; it
    never raises, whatever the host, processes and child. *)
Theorem execute_rejects_over_max (h0 : host) (req : Schemas.ExecuteRequest)
    (h : host) (w : world) (ch : child_behaviour) (elapsed_ms : Z) :
  (Config.max_exec_timeout_ms (Config.from_env h0) < Schemas.timeout_ms req)%Z ->
  exists m,
    Routes.execute (Config.from_env h0) req h w ch elapsed_ms =
      inl (Routes.HTTPException 422 ("timeout_ms exceeds maximum of " ++ m ++ " ms")) /\
    py_int m = Some (Config.max_exec_timeout_ms (Config.from_env h0)).
Proof.
  intros Hlt; unfold Routes.execute.
  rewrite (proj2 (Z.ltb_lt _ _) Hlt).
  destruct (py_str_int_bounded (Config.max_exec_timeout_ms (Config.from_env h0))) as [m Hm].
  { apply int_from_env_printable, (Z.lt_le_trans _ (10 ^ 4)); [reflexivity|].
    apply Z.pow_le_mono_r; lia. }
  rewrite Hm; exists m; split; [reflexivity|apply py_int_str; exact Hm].
Qed.

Lemma execute_rejects_over_max_witness :
  (Config.max_exec_timeout_ms (Config.from_env (demo_env_host [("MAX_EXEC_TIMEOUT_MS", "100")]%string))
     < Schemas.timeout_ms (demo_request 200))%Z /\
  exists m,
    Routes.execute (Config.from_env (demo_env_host [("MAX_EXEC_TIMEOUT_MS", "100")]%string))
      (demo_request 200) (demo_host true EmptyString) demo_world (demo_child []) 0 =
      inl (Routes.HTTPException 422 ("timeout_ms exceeds maximum of " ++ m ++ " ms")) /\
    py_int m = Some (Config.max_exec_timeout_ms
                       (Config.from_env (demo_env_host [("MAX_EXEC_TIMEOUT_MS", "100")]%string))).
Proof.
  assert (H : (Config.max_exec_timeout_ms
                 (Config.from_env (demo_env_host [("MAX_EXEC_TIMEOUT_MS", "100")]%string))
               < Schemas.timeout_ms (demo_request 200))%Z) by (vm_compute; reflexivity).
  split; [exact H|exact (execute_rejects_over_max _ _ _ _ _ _ H)].
Defined.

(** X4: a request the route runs has [timeout_ms] at most the maximum;
    its response carries at most [max(max_output_bytes, 15)] code points
    on each stream, and [exit_code] is [None] exactly when [timed_out]. *)
Theorem execute_response_shape (settings : Config.Settings) (req : Schemas.ExecuteRequest)
    (h : host) (w w' : world) (ch : child_behaviour) (elapsed_ms : Z)
    (resp : Schemas.ExecuteResponse) :
  Routes.execute settings req h w ch elapsed_ms = inr (w', resp) ->
  (Schemas.timeout_ms req <= Config.max_exec_timeout_ms settings)%Z /\
  (Z.of_nat (List.length (Schemas.stdout resp)) <= Z.max (Config.max_output_bytes settings) 15)%Z /\
  (Z.of_nat (List.length (Schemas.stderr resp)) <= Z.max (Config.max_output_bytes settings) 15)%Z /\
  (Schemas.exit_code resp = None <-> Schemas.timed_out resp = true) /\
  Schemas.duration_ms resp = elapsed_ms.
Proof.
  unfold Routes.execute.
  destruct (Config.max_exec_timeout_ms settings <? Schemas.timeout_ms req)%Z eqn:Et.
  { destruct (py_str_int _); discriminate. }
  apply Z.ltb_ge in Et.
  destruct (execute_python h w (Schemas.code req) (Schemas.timeout_ms req)
              (Config.max_output_bytes settings) ch elapsed_ms) as [[w1 r]|e] eqn:Ex;
    [|discriminate].
  intros H; injection H as <- <-; cbn [Schemas.stdout Schemas.stderr Schemas.exit_code
                                       Schemas.timed_out Schemas.duration_ms].
  unfold execute_python in Ex.
  destruct (build_invocation h (Schemas.code req)) as [inv|]; [|discriminate].
  destruct (popen h w (inv_cmd inv)) as [[w2 pid]|]; [|discriminate].
  unfold supervise in Ex; destruct (ch_run ch (w_procs w2)) as [ps1 [out err rc|]].
  - injection Ex as _ <-; cbn [stdout stderr exit_code timed_out duration_ms].
    split; [exact Et|split; [apply truncate_length_bound|split; [apply truncate_length_bound|]]].
    split; [split; discriminate|reflexivity].
  - destruct (ch_drain ch) as [out err].
    injection Ex as _ <-; cbn [stdout stderr exit_code timed_out duration_ms].
    split; [exact Et|split; [apply truncate_length_bound|split; [apply truncate_length_bound|]]].
    split; [split; reflexivity|reflexivity].
Qed.

Lemma execute_response_shape_witness :
  exists w' resp,
    Routes.execute (Config.from_env (demo_host true EmptyString)) (demo_request 1000)
      (demo_host true EmptyString) demo_world (demo_child [x31; x0a]) 0 = inr (w', resp) /\
    (Schemas.timeout_ms (demo_request 1000)
       <= Config.max_exec_timeout_ms (Config.from_env (demo_host true EmptyString)))%Z.
Proof.
  destruct (Routes.execute (Config.from_env (demo_host true EmptyString)) (demo_request 1000)
              (demo_host true EmptyString) demo_world (demo_child [x31; x0a]) 0)
    as [e|[w' resp]] eqn:E; [vm_compute in E; discriminate|].
  exists w', resp; split; [reflexivity|].
  exact (proj1 (execute_response_shape _ _ _ _ _ _ _ _ E)).
Defined.

(* ------------------------------------------------------------------ *)
(** ** [_limit_preexec] *)

Lemma py2rlim_in_range (v : Z) : (0 <= v < 2 ^ 63)%Z -> py2rlim v = Ok v.
Proof.
  intros Hv; unfold py2rlim.
  replace ((- 2 ^ 63 <=? v) && (v <? 2 ^ 63))%Z with true
    by (symmetry; apply andb_true_iff; split; [apply Z.leb_le|apply Z.ltb_lt]; lia).
  change RLIM_INFINITY with (Z.ones 64).
  rewrite Z.land_ones, Z.mod_small by lia; reflexivity.
Qed.

Lemma set_limit_limits (st : child_os) (r r' : rlimit_resource) (l : Z * Z) :
  c_limits (set_limit st r l) r' = if rlimit_resource_eqb r r' then l else c_limits st r'.
Proof. reflexivity. Qed.

Lemma rlimit_resource_eqb_refl (r : rlimit_resource) : rlimit_resource_eqb r r = true.
Proof. destruct r; reflexivity. Qed.

(** A failed or successful [setrlimit] keeps the ids and the privilege. *)
Lemma try_setrlimit_ids (st : child_os) (r : rlimit_resource) (s hd : Z) :
  c_pid (try_setrlimit st r s hd) = c_pid st /\ c_pgid (try_setrlimit st r s hd) = c_pgid st /\
  c_group_exists (try_setrlimit st r s hd) = c_group_exists st /\
  c_privileged (try_setrlimit st r s hd) = c_privileged st.
Proof.
  unfold try_setrlimit, setrlimit.
  destruct (py2rlim s) as [s'|]; [|repeat split].
  destruct (py2rlim hd) as [h'|]; [|repeat split]; cbn [bind].
  unfold kernel_setrlimit; split_ifs; repeat split.
Qed.

Lemma try_setrlimit_other (st : child_os) (r r' : rlimit_resource) (s hd : Z) :
  rlimit_resource_eqb r r' = false ->
  c_limits (try_setrlimit st r s hd) r' = c_limits st r'.
Proof.
  intros Hne; unfold try_setrlimit, setrlimit.
  destruct (py2rlim s) as [s'|]; [|reflexivity].
  destruct (py2rlim hd) as [h'|]; [|reflexivity]; cbn [bind].
  unfold kernel_setrlimit; split_ifs; try reflexivity.
  rewrite set_limit_limits, Hne; reflexivity.
Qed.

Lemma try_setrlimit_same (st : child_os) (r : rlimit_resource) (v : Z) :
  (0 <= v < 2 ^ 63)%Z ->
  c_limits (try_setrlimit st r v v) r = if limit_accepted st r v then (v, v) else c_limits st r.
Proof.
  intros Hv; unfold try_setrlimit, setrlimit; rewrite py2rlim_in_range by exact Hv; cbn [bind].
  unfold kernel_setrlimit, limit_accepted.
  rewrite Z.ltb_irrefl.
  destruct (rlimit_resource_eqb r RLIMIT_NOFILE && (NR_OPEN <? v)%Z); [reflexivity|].
  cbn [negb andb].
  destruct (snd (c_limits st r) <? v)%Z eqn:E1, (v <=? snd (c_limits st r))%Z eqn:E2;
    try (apply Z.ltb_lt in E1; apply Z.leb_le in E2; lia);
    try (apply Z.ltb_ge in E1; apply Z.leb_gt in E2; lia);
    destruct (c_privileged st); cbn [negb andb orb];
    rewrite ?set_limit_limits, ?rlimit_resource_eqb_refl; reflexivity.
Qed.

Lemma limit_accepted_congr (st1 st2 : child_os) (r : rlimit_resource) (v : Z) :
  c_limits st1 r = c_limits st2 r -> c_privileged st1 = c_privileged st2 ->
  limit_accepted st1 r v = limit_accepted st2 r v.
Proof. intros H1 H2; unfold limit_accepted; rewrite H1, H2; reflexivity. Qed.

Lemma os_setsid_ok (st st' : child_os) :
  os_setsid st = Ok st' ->
  c_limits st' = c_limits st /\ c_sid st' = c_pid st /\ c_pgid st' = c_pid st /\
  c_pid st' = c_pid st.
Proof.
  unfold os_setsid; destruct ((c_pgid st =? c_pid st)%Z || c_group_exists st); [discriminate|].
  intros H; injection H as <-; repeat split.
Qed.

(** X5: [_limit_preexec]'s [_apply] returns normally exactly when the
    [resource] module is missing, or when the child can start a new
    session (it leads no process group and no group has its pid): if it
    returns with [resource] present, that condition held in the start
    state and the child is now the leader of a new session and of a new
    process group named by its pid; if it raises, [resource] is present,
    the condition failed and the error is [EPERM] from [os.setsid].  Without
    [resource], it changes nothing and starts no session. *)
Theorem limit_preexec_session (resource_available : bool) (cpu_time_sec memory_limit_mb : Z)
    (st : child_os) :
  match _limit_preexec resource_available cpu_time_sec memory_limit_mb st with
  | Ok st' =>
      if resource_available
      then ((c_pgid st =? c_pid st)%Z || c_group_exists st) = false /\
           c_sid st' = c_pid st /\ c_pgid st' = c_pid st /\ c_pid st' = c_pid st
      else st' = st
  | Err e =>
      resource_available = true /\
      ((c_pgid st =? c_pid st)%Z || c_group_exists st) = true /\
      e = OSError "[Errno 1] Operation not permitted"
  end.
Proof.
  unfold _limit_preexec.
  destruct resource_available; cbn [negb]; [|reflexivity].
  set (st5 := try_setrlimit _ RLIMIT_NPROC 64 64).
  assert (c_pid st5 = c_pid st /\ c_pgid st5 = c_pgid st /\ c_group_exists st5 = c_group_exists st)
    as (Hp & Hg & He).
  { unfold st5; repeat match goal with
      |- context [c_pid (try_setrlimit ?s ?r ?a ?b)] =>
         destruct (try_setrlimit_ids s r a b) as (-> & -> & -> & _)
      end; repeat split. }
  destruct (os_setsid st5) as [st'|e] eqn:Es.
  - split.
    + pose proof Es as Es'; unfold os_setsid in Es'; rewrite Hp, Hg, He in Es'.
      destruct ((c_pgid st =? c_pid st)%Z || c_group_exists st); [discriminate|reflexivity].
    + destruct (os_setsid_ok _ _ Es) as (_ & H1 & H2 & H3); rewrite H1, H2, H3, Hp; repeat split.
  - unfold os_setsid in Es; rewrite Hp, Hg, He in Es.
    destruct ((c_pgid st =? c_pid st)%Z || c_group_exists st); [|discriminate].
    injection Es as <-; repeat split.
Qed.

(** X6: each of the five limits is best-effort and independent of the
    others: for a requested value in the range of [rlim_t] read as a
    signed 64-bit integer, the limit after [_apply] is [(v, v)] if the
    kernel accepts it from the child's starting limits (at most the old
    hard limit unless privileged, and at most [nr_open] for
    [RLIMIT_NOFILE]), and the starting limit otherwise. *)
Theorem limit_preexec_limits (cpu_time_sec memory_limit_mb : Z) (st st' : child_os)
    (r : rlimit_resource) :
  _limit_preexec true cpu_time_sec memory_limit_mb st = Ok st' ->
  (0 <= requested_limit cpu_time_sec memory_limit_mb r < 2 ^ 63)%Z ->
  c_limits st' r =
    if limit_accepted st r (requested_limit cpu_time_sec memory_limit_mb r)
    then (requested_limit cpu_time_sec memory_limit_mb r, requested_limit cpu_time_sec memory_limit_mb r)
    else c_limits st r.
Proof.
  unfold _limit_preexec; cbn [negb]; intros Hs Hv.
  destruct (os_setsid_ok _ _ Hs) as (-> & _).
  set (v := requested_limit cpu_time_sec memory_limit_mb r) in *.
  set (st1 := try_setrlimit st RLIMIT_CPU cpu_time_sec cpu_time_sec).
  set (st2 := try_setrlimit st1 RLIMIT_AS (memory_limit_mb * 1024 * 1024)
                (memory_limit_mb * 1024 * 1024)).
  set (st3 := try_setrlimit st2 RLIMIT_FSIZE (16 * 1024 * 1024) (16 * 1024 * 1024)).
  set (st4 := try_setrlimit st3 RLIMIT_NOFILE 64 64).
  assert (Hpr : c_privileged st1 = c_privileged st /\ c_privileged st2 = c_privileged st /\
                c_privileged st3 = c_privileged st /\ c_privileged st4 = c_privileged st).
  { unfold st4, st3, st2, st1;
      repeat match goal with
      |- context [c_privileged (try_setrlimit ?s ?r ?a ?b)] =>
         destruct (try_setrlimit_ids s r a b) as (_ & _ & _ & ->)
      end; repeat split. }
  destruct Hpr as (P1 & P2 & P3 & P4).
  destruct r; unfold v in *; cbn [requested_limit] in *.
  - rewrite (try_setrlimit_other st4 RLIMIT_NPROC) by reflexivity.
    unfold st4; rewrite try_setrlimit_other by reflexivity.
    unfold st3; rewrite try_setrlimit_other by reflexivity.
    unfold st2; rewrite try_setrlimit_other by reflexivity.
    unfold st1; apply try_setrlimit_same; exact Hv.
  - rewrite (try_setrlimit_other st4 RLIMIT_NPROC) by reflexivity.
    unfold st4; rewrite try_setrlimit_other by reflexivity.
    unfold st3; rewrite try_setrlimit_other by reflexivity.
    unfold st2; rewrite try_setrlimit_same by exact Hv.
    rewrite (limit_accepted_congr st1 st); [|unfold st1; apply try_setrlimit_other; reflexivity|exact P1].
    unfold st1; rewrite try_setrlimit_other by reflexivity; reflexivity.
  - rewrite (try_setrlimit_other st4 RLIMIT_NPROC) by reflexivity.
    unfold st4; rewrite try_setrlimit_other by reflexivity.
    unfold st3; rewrite try_setrlimit_same by exact Hv.
    rewrite (limit_accepted_congr st2 st); [|unfold st2, st1; rewrite !try_setrlimit_other by reflexivity; reflexivity|exact P2].
    unfold st2, st1; rewrite !try_setrlimit_other by reflexivity; reflexivity.
  - rewrite (try_setrlimit_other st4 RLIMIT_NPROC) by reflexivity.
    unfold st4; rewrite try_setrlimit_same by exact Hv.
    rewrite (limit_accepted_congr st3 st); [|unfold st3, st2, st1; rewrite !try_setrlimit_other by reflexivity; reflexivity|exact P3].
    unfold st3, st2, st1; rewrite !try_setrlimit_other by reflexivity; reflexivity.
  - rewrite try_setrlimit_same by exact Hv.
    rewrite (limit_accepted_congr st4 st); [|unfold st4, st3, st2, st1; rewrite !try_setrlimit_other by reflexivity; reflexivity|exact P4].
    unfold st4, st3, st2, st1; rewrite !try_setrlimit_other by reflexivity; reflexivity.
Qed.

Lemma limit_preexec_limits_witness :
  c_limits (match _limit_preexec true 2 256 demo_child_os with Ok s => s | Err _ => demo_child_os end)
    RLIMIT_AS = (268435456%Z, 268435456%Z).
Proof.
  destruct (_limit_preexec true 2 256 demo_child_os) as [st'|e] eqn:E; [|vm_compute in E; discriminate].
  rewrite (limit_preexec_limits 2 256 demo_child_os st' RLIMIT_AS E) by (unfold requested_limit; lia).
  vm_compute; reflexivity.
Defined.

(* ------------------------------------------------------------------ *)
(** ** The guest bootstrap: [b64decode] and [decode] of the user code *)

Lemma below256_spec (a : N) : (a < 256)%N -> In a below256.
Proof.
  intros Ha; unfold below256; apply in_map_iff; exists (N.to_nat a); split; [apply N2Nat.id|].
  apply in_seq; lia.
Qed.

Lemma forall_below256 (P : N -> bool) :
  forallb P below256 = true -> forall a, (a < 256)%N -> P a = true.
Proof. intros H a Ha; rewrite forallb_forall in H; apply H, below256_spec, Ha. Qed.

Lemma quad_ok1_all : forallb quad_ok1 below256 = true.
Proof. vm_compute; reflexivity. Qed.

Lemma quad_ok2_all : forallb (fun a => forallb (quad_ok2 a) below256) below256 = true.
Proof. vm_compute; reflexivity. Qed.

Lemma quad1 (a : N) : (a < 256)%N -> quad_ok1 a = true.
Proof. apply forall_below256, quad_ok1_all. Qed.

Lemma quad2 (a b : N) : (a < 256)%N -> (b < 256)%N -> quad_ok2 a b = true.
Proof.
  intros Ha Hb; apply (forall_below256 (quad_ok2 a)); [|exact Hb].
  exact (forall_below256 (fun a => forallb (quad_ok2 a) below256) quad_ok2_all a Ha).
Qed.

Ltac quad_facts H :=
  repeat match type of H with
  | _ && _ = true => apply andb_true_iff in H as [H ?]
  end.

Lemma b64_char_table (v : N) :
  (v < 64)%N -> table_a2b_base64 (b64_char v) = v /\ Ascii.eqb (b64_char v) BASE64_PAD = false.
Proof.
  intros Hv.
  assert (forallb (fun v => if (v <? 64)%N
                            then (table_a2b_base64 (b64_char v) =? v)%N &&
                                 negb (Ascii.eqb (b64_char v) BASE64_PAD)
                            else true) below256 = true) as H by (vm_compute; reflexivity).
  pose proof (forall_below256 _ H v ltac:(lia)) as Hv'; cbn beta in Hv'.
  rewrite (proj2 (N.ltb_lt _ _) Hv) in Hv'.
  apply andb_true_iff in Hv' as [H1 H2]; apply N.eqb_eq in H1; apply negb_true_iff in H2; auto.
Qed.

Lemma a2b_step (v : N) (cs : list ascii) (q : nat) (l : N) (p : nat) (acc : list byte) (n : nat) :
  (v < 64)%N ->
  a2b_loop (b64_char v :: cs) q l p acc n =
  match q with
  | 0 => a2b_loop cs 1 v 0 acc n
  | 1 => a2b_loop cs 2 (N.land v 15) 0 (byte_of (N.lor (N.shiftl l 2) (N.shiftr v 4)) :: acc) (S n)
  | 2 => a2b_loop cs 3 (N.land v 3) 0 (byte_of (N.lor (N.shiftl l 4) (N.shiftr v 2)) :: acc) (S n)
  | _ => a2b_loop cs 0 0 0 (byte_of (N.lor (N.shiftl l 6) v) :: acc) (S n)
  end.
Proof.
  intros Hv; destruct (b64_char_table v Hv) as [Ht Hp].
  cbn [a2b_loop]; rewrite Hp, Ht.
  replace (64 <=? v)%N with false by (symmetry; apply N.leb_gt; exact Hv); reflexivity.
Qed.

Ltac quad_rewrite :=
  repeat match goal with H : (_ <? _)%N = true |- _ => apply N.ltb_lt in H end;
  repeat match goal with H : (_ =? _)%N = true |- _ => apply N.eqb_eq in H end;
  repeat match goal with H : @eq N _ _ |- _ => progress rewrite H end.

Lemma a2b_b64_encode (bs : list N) (acc : list byte) (n : nat) :
  Forall (fun b => (b < 256)%N) bs ->
  a2b_loop (b64_encode bs) 0 0 0 acc n = Ok (rev acc ++ map byte_of bs).
Proof.
  remember (List.length bs) as k eqn:Hk.
  assert (List.length bs <= k)%nat as Hle by lia; clear Hk.
  revert bs acc n Hle; induction k as [|k IH]; intros bs acc n Hle Hb.
  { destruct bs; [cbn; rewrite app_nil_r; reflexivity|cbn in Hle; lia]. }
  destruct bs as [|a [|b [|c bs]]].
  - cbn; rewrite app_nil_r; reflexivity.
  - inversion Hb as [|? ? Ha _]; subst.
    pose proof (quad1 a Ha) as Q; unfold quad_ok1 in Q; cbv zeta in Q; quad_facts Q.
    quad_rewrite.
    cbn [b64_encode]; rewrite !a2b_step by assumption.
    cbn [a2b_loop Ascii.eqb Bool.eqb BASE64_PAD Nat.leb Nat.add rev app map].
    quad_rewrite; reflexivity.
  - inversion Hb as [|? ? Ha Hb']; inversion Hb' as [|? ? Hb2 _]; subst.
    pose proof (quad2 a b Ha Hb2) as Q; unfold quad_ok2 in Q; cbv zeta in Q; quad_facts Q.
    pose proof (quad1 b Hb2) as Q1; unfold quad_ok1 in Q1; cbv zeta in Q1; quad_facts Q1.
    pose proof (quad1 a Ha) as Q2; unfold quad_ok1 in Q2; cbv zeta in Q2; quad_facts Q2.
    cbn [b64_encode]; rewrite !a2b_step by (quad_rewrite; assumption).
    cbn [a2b_loop Ascii.eqb Bool.eqb BASE64_PAD Nat.leb Nat.add rev app map].
    quad_rewrite; rewrite <- app_assoc; reflexivity.
  - inversion Hb as [|? ? Ha Hb']; inversion Hb' as [|? ? Hb2 Hb'']; inversion Hb'' as [|? ? Hc Hr];
      subst.
    pose proof (quad2 a b Ha Hb2) as Q; unfold quad_ok2 in Q; cbv zeta in Q; quad_facts Q.
    pose proof (quad2 b c Hb2 Hc) as Q1; unfold quad_ok2 in Q1; cbv zeta in Q1; quad_facts Q1.
    pose proof (quad1 c Hc) as Q2; unfold quad_ok1 in Q2; cbv zeta in Q2; quad_facts Q2.
    pose proof (quad1 a Ha) as Q3; unfold quad_ok1 in Q3; cbv zeta in Q3; quad_facts Q3.
    cbn [b64_encode]; rewrite !a2b_step by (quad_rewrite; assumption).
    quad_rewrite.
    rewrite IH by (cbn in Hle |- *; lia || exact Hr).
    cbn [rev map]; rewrite <- !app_assoc; reflexivity.
Qed.

Lemma string_get_in (k : nat) (s : string) (c : ascii) :
  String.get k s = Some c -> In c (list_ascii_of_string s).
Proof.
  revert k; induction s as [|c' s IH]; intros k; [discriminate|].
  destruct k as [|k]; cbn; [intros H; injection H as ->; left; reflexivity|].
  intros H; right; exact (IH k H).
Qed.

Lemma b64_char_ascii (n : N) : (nat_of_ascii (b64_char n) < 128)%nat.
Proof.
  unfold b64_char; destruct (String.get (N.to_nat n) B64_ALPHABET) as [c|] eqn:E; [|cbn; lia].
  apply string_get_in in E.
  assert (forallb (fun c => nat_of_ascii c <? 128) (list_ascii_of_string B64_ALPHABET) = true)
    as H by (vm_compute; reflexivity).
  rewrite forallb_forall in H; apply Nat.ltb_lt, H, E.
Qed.

Lemma b64_encode_ascii (bs : list N) :
  forallb (fun c => nat_of_ascii c <? 128) (b64_encode bs) = true.
Proof.
  remember (List.length bs) as k eqn:Hk.
  assert (List.length bs <= k)%nat as Hle by lia; clear Hk.
  revert bs Hle; induction k as [|k IH]; intros bs Hle.
  { destruct bs; [reflexivity|cbn in Hle; lia]. }
  destruct bs as [|a [|b [|c bs]]]; cbn [b64_encode forallb];
    rewrite ?(proj2 (Nat.ltb_lt _ _) (b64_char_ascii _)); try reflexivity.
  apply IH; cbn in Hle; lia.
Qed.

Ltac nlia := zify; Z.to_euclidean_division_equations; lia.

Lemma lor_shiftl_add (x y k : N) : (y < 2 ^ k)%N -> N.lor (N.shiftl x k) y = (x * 2 ^ k + y)%N.
Proof.
  intros Hy.
  assert (H0 : N.land (N.shiftl x k) y = 0%N).
  { apply N.bits_inj_0; intros n; rewrite N.land_spec.
    destruct (N.lt_ge_cases n k) as [Hn|Hn].
    - rewrite N.shiftl_spec_low by exact Hn; reflexivity.
    - assert (Hd : (y / 2 ^ n = 0)%N).
      { apply N.div_small; apply (N.lt_le_trans _ _ _ Hy), N.pow_le_mono_r; lia. }
      pose proof (N.testbit_spec' y n) as Hb; rewrite Hd in Hb.
      destruct (N.testbit y n); [discriminate|apply andb_false_r]. }
  rewrite <- N.lxor_lor, <- N.add_nocarry_lxor by exact H0.
  rewrite N.shiftl_mul_pow2; reflexivity.
Qed.

Lemma lor192 (y : N) : (y < 64)%N -> N.lor 192 y = (192 + y)%N.
Proof. intros H; exact (lor_shiftl_add 3 y 6 H). Qed.
Lemma lor128 (y : N) : (y < 128)%N -> N.lor 128 y = (128 + y)%N.
Proof. intros H; exact (lor_shiftl_add 1 y 7 H). Qed.
Lemma lor224 (y : N) : (y < 32)%N -> N.lor 224 y = (224 + y)%N.
Proof. intros H; exact (lor_shiftl_add 7 y 5 H). Qed.
Lemma lor240 (y : N) : (y < 16)%N -> N.lor 240 y = (240 + y)%N.
Proof. intros H; exact (lor_shiftl_add 15 y 4 H). Qed.

Lemma land_low (x k : N) : N.land x (N.ones k) = (x mod 2 ^ k)%N.
Proof. apply N.land_ones. Qed.

Lemma byte_of_val (x : N) : (x < 256)%N -> bval (byte_of x) = x.
Proof.
  intros H; apply (forall_below256 (fun x => bval (byte_of x) =? x)%N) in H;
    [apply N.eqb_eq, H|vm_compute; reflexivity].
Qed.

Ltac nsplit :=
  repeat match goal with
  | |- context [ (?x <? ?y)%N ] => destruct (N.ltb_spec x y); try (exfalso; nlia)
  | |- context [ (?x <=? ?y)%N ] => destruct (N.leb_spec x y); try (exfalso; nlia)
  | |- context [ (?x =? ?y)%N ] => destruct (N.eqb_spec x y); try (exfalso; nlia)
  end.

Ltac eval_pow :=
  repeat match goal with
  | |- context [(2 ^ ?k)%N] => let p := eval vm_compute in (2 ^ k)%N in change (2 ^ k)%N with p
  end.

Ltac lor_in :=
  repeat match goal with
  | |- context [N.lor (N.shiftl ?x ?k) ?y] =>
      lazymatch y with context [N.lor _ _] => fail | _ => idtac end;
      rewrite (lor_shiftl_add x y k) by (eval_pow; nlia)
  end.

Lemma utf8_encode_cp_ok (c : N) :
  (c < 1114112)%N ->
  match utf8_encode_cp c with
  | Some bs =>
      Forall (fun b => (b < 256)%N) bs /\
      match map byte_of bs with
      | b1 :: tl => forall rest, dec1_strict b1 (tl ++ rest) = Some (c, List.length tl)
      | [] => False
      end
  | None => True
  end.
Proof.
  intros Hc; unfold utf8_encode_cp.
  rewrite !N.shiftr_div_pow2.
  change 63%N with (N.ones 6); rewrite !land_low.
  change (2 ^ 6)%N with 64%N; change (2 ^ 12)%N with 4096%N; change (2 ^ 18)%N with 262144%N.
  nsplit; cbn [andb]; try exact I;
    rewrite ?lor192, ?lor224, ?lor240, ?lor128 by nlia;
    (split; [repeat (apply Forall_cons; [nlia|]); apply Forall_nil|]);
    cbn [map app List.length]; intros rest;
    unfold dec1_strict, second_ok3, second_ok4, is_cont, low6;
    rewrite ?byte_of_val by nlia; cbv zeta.
  all: nsplit.
  all: cbn [andb]; nsplit.
  all: try reflexivity.
  all: change 31%N with (N.ones 5); change 15%N with (N.ones 4); change 7%N with (N.ones 3);
       change 63%N with (N.ones 6); rewrite ?land_low; lor_in; eval_pow; do 2 f_equal; nlia.
Qed.

(** The encoder of [encode_code] is [utf8_encode] on code points 0-255. *)
Lemma utf8_encode_char_cp (c : ascii) :
  utf8_encode_cp (N.of_nat (nat_of_ascii c)) = Some (utf8_encode_char c).
Proof. destruct c as [[] [] [] [] [] [] [] []]; vm_compute; reflexivity. Qed.

Lemma encode_code_utf8 (code : string) :
  utf8_encode (code_points code) = Some (flat_map utf8_encode_char (list_ascii_of_string code)).
Proof.
  unfold code_points; induction (list_ascii_of_string code) as [|c cs IH]; [reflexivity|].
  cbn [map utf8_encode flat_map]; rewrite utf8_encode_char_cp, IH; reflexivity.
Qed.

Lemma utf8_encode_ok (t : pystr) (bs : list N) :
  Forall (fun c => (c < 1114112)%N) t -> utf8_encode t = Some bs ->
  Forall (fun b => (b < 256)%N) bs /\
  forall fuel, (List.length bs <= fuel)%nat -> decode_strict_loop fuel (map byte_of bs) = Some t.
Proof.
  revert bs; induction t as [|c t IH]; intros bs Ht He.
  - injection He as <-; split; [constructor|intros [|f] _; reflexivity].
  - inversion Ht as [|? ? Hc Ht']; subst.
    cbn [utf8_encode] in He.
    pose proof (utf8_encode_cp_ok c Hc) as Hcp.
    destruct (utf8_encode_cp c) as [b|]; [|discriminate].
    destruct (utf8_encode t) as [bs'|]; [|discriminate].
    injection He as <-.
    destruct (IH bs' Ht' eq_refl) as [Hb' Hd'].
    destruct Hcp as [Hb Hd].
    split; [apply Forall_app; split; assumption|].
    intros fuel Hf; rewrite map_app.
    assert (Hl : List.length (map byte_of b) = List.length b) by apply length_map.
    destruct (map byte_of b) as [|b1 tl]; [destruct Hd|].
    destruct fuel as [|fuel]; [rewrite length_app in Hf; cbn in Hl; lia|].
    cbn [app decode_strict_loop]; rewrite Hd.
    rewrite skipn_app, skipn_all, Nat.sub_diag; cbn [skipn app].
    rewrite Hd'; [reflexivity|].
    rewrite length_app in Hf; cbn in Hl; lia.
Qed.

(** X7: the code [execute_python] sends reaches the guest unchanged: for
    any [str] [code] (its code points are below U+110000) that
    [code.encode("utf-8")] accepts, giving [bs], if the guest's
    [PY_CODE_B64] holds [base64.b64encode(bs)], line 87 of the bootstrap
    decodes it back to exactly [code], with no [binascii.Error] and no
    [UnicodeDecodeError]. *)
Theorem bootstrap_code_roundtrip (genv : list (string * string)) (code : pystr) (bs : list N) :
  Forall (fun c => (c < 1114112)%N) code ->
  utf8_encode code = Some bs ->
  assoc String.eqb "PY_CODE_B64"%string genv = Some (string_of_list_ascii (b64_encode bs)) ->
  bootstrap_code genv = inr code.
Proof.
  intros Hc He Hg; unfold bootstrap_code; rewrite Hg.
  destruct (utf8_encode_ok _ _ Hc He) as [Hb Hd].
  unfold b64decode; rewrite list_ascii_of_string_of_list_ascii, b64_encode_ascii.
  rewrite a2b_b64_encode by exact Hb; cbn [rev app].
  unfold decode_strict; rewrite Hd by (rewrite length_map; lia); reflexivity.
Qed.

Lemma bootstrap_code_roundtrip_witness :
  bootstrap_code
    [("PY_CODE_B64"%string,
      string_of_list_ascii (b64_encode [226; 130; 172; 240; 159; 152; 128; 10]%N))] =
  inr [8364; 128512; 10]%N.
Proof.
  apply (bootstrap_code_roundtrip _ _ [226; 130; 172; 240; 159; 152; 128; 10]%N);
    [repeat (apply Forall_cons; [vm_compute; reflexivity|]); apply Forall_nil
    |vm_compute; reflexivity|reflexivity].
Defined.

(* ------------------------------------------------------------------ *)
(** ** The guest bootstrap: [sys.path] *)

Lemma append_empty_r (s : string) : (s ++ EmptyString)%string = s.
Proof. induction s as [|c s IH]; cbn; [reflexivity|rewrite IH; reflexivity]. Qed.

Lemma split_on_app (sep : ascii) (p s : string) :
  contains_char sep p = false ->
  split_on sep (p ++ s) =
  match split_on sep s with w :: ws => (p ++ w)%string :: ws | [] => [] end.
Proof.
  induction p as [|c p IH]; cbn [append contains_char]; intros Hp.
  - destruct (split_on sep s); reflexivity.
  - apply orb_false_iff in Hp as [Hc Hp].
    cbn [split_on]; rewrite (IH Hp).
    destruct (split_on sep s) as [|w ws]; [reflexivity|].
    rewrite Ascii.eqb_sym, Hc; reflexivity.
Qed.

(** [":".join(ps).split(":")] is [ps] when no part holds [":"]. *)
Lemma split_on_concat (sep : ascii) (ps : list string) :
  ps <> [] -> Forall (fun p => contains_char sep p = false) ps ->
  split_on sep (String.concat (String sep EmptyString) ps) = ps.
Proof.
  induction ps as [|p ps IH]; intros Hne Hf; [contradiction|].
  inversion Hf as [|? ? Hp Hr]; subst.
  destruct ps as [|p' ps'].
  - cbn [String.concat]; rewrite <- (append_empty_r p) at 1.
    rewrite (split_on_app _ _ _ Hp); cbn [split_on]; rewrite append_empty_r; reflexivity.
  - change (String.concat (String sep EmptyString) (p :: p' :: ps'))
      with (p ++ String sep (String.concat (String sep EmptyString) (p' :: ps')))%string.
    rewrite (split_on_app _ _ _ Hp); cbn [split_on].
    rewrite IH by (discriminate || exact Hr).
    rewrite Ascii.eqb_refl, append_empty_r; reflexivity.
Qed.

Lemma insert_front_fold (l sp : list string) :
  NoDup l ->
  fold_left insert_front (rev l) sp =
  filter (fun p => negb (existsb (String.eqb p) sp)) l ++ sp.
Proof.
  induction l as [|x l IH]; intros Hnd; [reflexivity|].
  inversion Hnd as [|? ? Hx Hnd']; subst.
  cbn [rev]; rewrite fold_left_app, IH by exact Hnd'; cbn [fold_left filter].
  unfold insert_front; rewrite existsb_app.
  replace (existsb (String.eqb x) (filter (fun p => negb (existsb (String.eqb p) sp)) l))
    with false.
  2:{ symmetry; apply not_true_iff_false; intros He; apply existsb_exists in He as (y & Hy & Exy).
      apply String.eqb_eq in Exy; subst y; apply filter_In in Hy as [Hy _]; contradiction. }
  cbn [orb]; destruct (existsb (String.eqb x) sp); reflexivity.
Qed.

(** X8: when the guest's [PYTHON_WASM_STDLIB_PATHS] is [":".join(ps)] for
    distinct, non-empty paths without [":"], the bootstrap leaves
    [sys.path] as the paths of [ps] not yet on it, in their order,
    followed by the old [sys.path]; with [ps] empty (the empty value
    [execute_python] injects when no stdlib is found) [sys.path] is
    unchanged. *)
Theorem bootstrap_path_prepends (genv : list (string * string)) (g : guest)
    (ps : list string) :
  assoc String.eqb "PYTHON_WASM_STDLIB_PATHS"%string genv = Some (String.concat ":" ps) ->
  NoDup ps ->
  Forall (fun p => p <> EmptyString /\ contains_char ":" p = false) ps ->
  g_path (bootstrap_sys genv g) =
  filter (fun p => negb (existsb (String.eqb p) (g_path g))) ps ++ g_path g.
Proof.
  intros He Hnd Hf; unfold bootstrap_sys.
  set (g1 := match assoc String.eqb "PYTHON_WASM_PREFIX"%string genv with
             | Some p => if (p =? EmptyString)%string then g
                         else {| g_prefix := p; g_exec_prefix := p; g_path := g_path g |}
             | None => g end).
  assert (g_path g1 = g_path g) as Hg1.
  { unfold g1; destruct (assoc String.eqb "PYTHON_WASM_PREFIX"%string genv) as [p|];
      [destruct (p =? EmptyString)%string|]; reflexivity. }
  rewrite He; destruct ps as [|p ps]; [cbn; exact Hg1|].
  replace (String.concat ":" (p :: ps) =? EmptyString)%string with false.
  2:{ symmetry; apply String.eqb_neq; inversion Hf as [|? ? [Hp _] _]; subst.
      destruct ps; cbn [String.concat]; [exact Hp|].
      destruct p; [contradiction|discriminate]. }
  cbn [g_path]; rewrite split_on_concat.
  - rewrite forallb_filter_id, (insert_front_fold _ _ Hnd), Hg1; [reflexivity|].
    apply forallb_forall; intros x Hx; apply negb_true_iff, String.eqb_neq.
    exact (proj1 (proj1 (Forall_forall _ _) Hf x Hx)).
  - discriminate.
  - eapply Forall_impl; [|exact Hf]; intros x [_ Hx]; exact Hx.
Qed.

Lemma bootstrap_path_prepends_witness :
  g_path (bootstrap_sys [("PYTHON_WASM_STDLIB_PATHS", "/opt/py/lib:/opt/py/site")]%string
            {| g_prefix := "/"; g_exec_prefix := "/"; g_path := ["/cwd"; "/opt/py/site"] |}%string) =
  ["/opt/py/lib"; "/cwd"; "/opt/py/site"]%string.
Proof.
  rewrite (bootstrap_path_prepends _ _ ["/opt/py/lib"; "/opt/py/site"]%string).
  - reflexivity.
  - reflexivity.
  - repeat constructor; cbn; intuition discriminate.
  - repeat constructor; discriminate.
Defined.

(* ------------------------------------------------------------------ *)
(** ** The child's environment: [env.update(env_updates)] *)

Lemma assoc_app_string {V} (k : string) (l1 l2 : list (string * V)) :
  assoc String.eqb k (l1 ++ l2) =
  match assoc String.eqb k l1 with Some v => Some v | None => assoc String.eqb k l2 end.
Proof.
  induction l1 as [|[k' v'] l1 IH]; cbn [app assoc]; [reflexivity|].
  destruct (k =? k')%string; [reflexivity|exact IH].
Qed.

Lemma assoc_none_not_key (k : string) (d : list (string * string)) :
  existsb (fun '(k', _) => (k =? k')%string) d = false -> assoc String.eqb k d = None.
Proof.
  induction d as [|[k' v'] d IH]; cbn [existsb assoc]; [reflexivity|].
  destruct (k =? k')%string; [discriminate|exact IH].
Qed.

Lemma assoc_update_map (k k0 v0 : string) (d : list (string * string)) :
  existsb (fun '(k', _) => (k0 =? k')%string) d = true ->
  assoc String.eqb k
    (map (fun '(k', v') => if (k0 =? k')%string then (k', v0) else (k', v')) d) =
  if (k =? k0)%string then Some v0 else assoc String.eqb k d.
Proof.
  destruct (String.eqb_spec k k0) as [->|Hk].
  - induction d as [|[k' v'] d IH]; cbn [existsb map assoc]; [discriminate|].
    destruct (String.eqb_spec k0 k') as [<-|Hne]; [rewrite String.eqb_refl; reflexivity|].
    cbn [orb assoc]; intros Hex; rewrite (proj2 (String.eqb_neq _ _) Hne); exact (IH Hex).
  - intros _; induction d as [|[k' v'] d IH]; cbn [map assoc]; [reflexivity|].
    destruct (String.eqb_spec k0 k') as [<-|Hne]; cbn [assoc].
    + rewrite (proj2 (String.eqb_neq _ _) Hk); exact IH.
    + destruct (k =? k')%string; [reflexivity|exact IH].
Qed.

(** [d.update(u)] seen through lookups: the last value [u] gives for a
    key, else the value in [d]. *)
Lemma dict_update_lookup (d u : list (string * string)) (k : string) :
  assoc String.eqb k (dict_update d u) =
  match assoc String.eqb k (rev u) with Some v => Some v | None => assoc String.eqb k d end.
Proof.
  unfold dict_update; revert d; induction u as [|[k0 v0] u IH]; intros d; [reflexivity|].
  cbn [fold_left rev]; rewrite IH, assoc_app_string.
  destruct (assoc String.eqb k (rev u)) as [v|]; [reflexivity|].
  cbn [assoc].
  destruct (existsb (fun '(k', _) => (k0 =? k')%string) d) eqn:Ex.
  - rewrite assoc_update_map by exact Ex; destruct (k =? k0)%string; reflexivity.
  - rewrite assoc_app_string; cbn [assoc].
    destruct (String.eqb_spec k k0) as [->|]; [|destruct (assoc String.eqb k d); reflexivity].
    rewrite (assoc_none_not_key _ _ Ex); reflexivity.
Qed.

Lemma assoc_rev_nodup (k : string) (u : list (string * string)) :
  NoDup (map fst u) -> assoc String.eqb k (rev u) = assoc String.eqb k u.
Proof.
  induction u as [|[k0 v0] u IH]; intros Hnd; [reflexivity|].
  inversion Hnd as [|? ? Hx Hnd']; subst.
  cbn [rev assoc]; rewrite assoc_app_string, IH by exact Hnd'; cbn [assoc].
  destruct (String.eqb_spec k k0) as [->|]; [|destruct (assoc String.eqb k u); reflexivity].
  destruct (assoc String.eqb k0 u) eqn:E; [|reflexivity].
  exfalso; apply Hx; clear -E; induction u as [|[k' v'] u IH]; [discriminate|].
  cbn [assoc] in E; destruct (String.eqb_spec k0 k') as [->|]; [left; reflexivity|right; auto].
Qed.

Lemma make_env_updates_nodup (e s : string) : NoDup (map fst (make_env_updates e s)).
Proof.
  unfold make_env_updates; destruct (s =? EmptyString)%string; cbn;
    repeat constructor; cbn; intuition discriminate.
Qed.

(** X9: the environment [Popen] gives the runtime is the host's
    environment with each key of [env_updates] set to its value, and
    every other variable kept: with no stdlib found,
    [PYTHONPATH] keeps the host's value. *)
Theorem invocation_env_lookup (h : host) (code : string) (inv : invocation) (k : string) :
  build_invocation h code = Ok inv ->
  assoc String.eqb k (inv_env inv) =
  match assoc String.eqb k
          (make_env_updates (encode_code code) (String.concat ":" (inv_stdlib_paths inv))) with
  | Some v => Some v
  | None => environ_get h k
  end.
Proof.
  unfold build_invocation.
  destruct (_resolve_wasm_runtime h) as [[[rt m] a]|e]; [|discriminate].
  intros H.
  assert (Hi : inv_env inv = dict_update (h_env h)
                 (make_env_updates (encode_code code) (String.concat ":" (inv_stdlib_paths inv))))
    by (injection H as <-; reflexivity).
  rewrite Hi, dict_update_lookup, (assoc_rev_nodup _ _ (make_env_updates_nodup _ _)).
  reflexivity.
Qed.

Lemma invocation_env_lookup_witness :
  exists inv, build_invocation (demo_env_host [("PYTHONPATH", "/host/site")]%string) "1" = Ok inv /\
  assoc String.eqb "PYTHONPATH"%string (inv_env inv) = Some "/python/lib/python3.12:/python/lib/python3.12/lib-dynload:/python/lib/python312.zip"%string.
Proof.
  destruct (build_invocation (demo_env_host [("PYTHONPATH", "/host/site")]%string) "1")
    as [inv|e] eqn:E; [|vm_compute in E; discriminate].
  exists inv; split; [reflexivity|].
  rewrite (invocation_env_lookup _ _ _ _ E).
  vm_compute in E; injection E as <-; reflexivity.
Defined.

(* ------------------------------------------------------------------ *)
(** ** The runtime found is an executable file *)

Lemma isfile_access_check (h : host) (p : string) :
  isfile h p && access_x h p = true -> access_check h p = true.
Proof.
  unfold access_check, path_exists, isdir, isfile, access_x.
  destruct (lookup h p) as [[f|]|]; cbn; intros H; [rewrite H; reflexivity|discriminate..].
Qed.

Lemma locate_runtime_access (h : host) (e : option string) (p : string) :
  _locate_runtime h e = Some p -> access_check h p = true.
Proof.
  unfold _locate_runtime; destruct e as [e|]; [|discriminate].
  destruct (e =? EmptyString)%string; [discriminate|].
  destruct (isabs e || contains_char SLASH e); [|apply which_access].
  destruct (isfile h (abspath h e) && access_x h (abspath h e)) eqn:E; [|discriminate].
  intros H; injection H as <-; apply isfile_access_check, E.
Qed.

Lemma first_default_access (h : host) (ps : list string) (p : string) :
  first_default h ps = Some p -> access_check h p = true.
Proof.
  induction ps as [|q ps IH]; cbn [first_default]; [discriminate|].
  destruct (isfile h q && access_x h q) eqn:E; [|exact IH].
  intros H; injection H as <-; apply isfile_access_check, E.
Qed.

(** X10: [_resolve_wasm_runtime] only returns a runtime binary that
    exists, is executable and is not a directory, whichever of the
    configured value, [wasmtime] on [PATH] or the well-known locations
    it came from. *)
Theorem resolve_runtime_executable (h : host) (rt m : string) (a : list string) :
  _resolve_wasm_runtime h = Ok (rt, m, a) ->
  path_exists h rt = true /\ access_x h rt = true /\ isdir h rt = false.
Proof.
  intros H; apply resolve_ok_runtime in H.
  assert (Hc : access_check h rt = true).
  { revert H; unfold resolve_runtime_path.
    destruct (_locate_runtime h (environ_get h "PYTHON_WASM_RUNTIME")) as [r|] eqn:E1.
    - intros H; injection H as <-; exact (locate_runtime_access _ _ _ E1).
    - destruct (_locate_runtime h (Some "wasmtime"%string)) as [r|] eqn:E2.
      + intros H; injection H as <-; exact (locate_runtime_access _ _ _ E2).
      + apply first_default_access. }
  unfold access_check in Hc; apply andb_true_iff in Hc as [Hc Hd];
    apply andb_true_iff in Hc as [He Hx]; apply negb_true_iff in Hd; auto.
Qed.

Lemma resolve_runtime_executable_witness :
  _resolve_wasm_runtime (demo_host true EmptyString) =
    Ok ("/usr/bin/wasmtime"%string, "/opt/py/python.wasm"%string, []) /\
  access_x (demo_host true EmptyString) "/usr/bin/wasmtime" = true.
Proof.
  assert (H : _resolve_wasm_runtime (demo_host true EmptyString) =
                Ok ("/usr/bin/wasmtime"%string, "/opt/py/python.wasm"%string, []))
    by (vm_compute; reflexivity).
  split; [exact H|exact (proj1 (proj2 (resolve_runtime_executable _ _ _ _ H)))].
Defined.

(* ------------------------------------------------------------------ *)
(** ** [shlex.split] on plain words *)

Lemma list_ascii_of_string_app (a b : string) :
  list_ascii_of_string (a ++ b) = list_ascii_of_string a ++ list_ascii_of_string b.
Proof. induction a as [|c a IH]; cbn; [reflexivity|rewrite IH; reflexivity]. Qed.

Lemma shlex_go_word (cs rest tok : list ascii) (acc : list string) :
  forallb (fun c => negb (is_ws c || is_quote c || Ascii.eqb c BACKSLASH)) cs = true ->
  shlex_go (cs ++ rest) LWord tok acc = shlex_go rest LWord (rev cs ++ tok) acc.
Proof.
  revert tok; induction cs as [|c cs IH]; intros tok Hp; [reflexivity|].
  cbn [forallb] in Hp; apply andb_true_iff in Hp as [Hc Hp].
  apply negb_true_iff, orb_false_iff in Hc as [Hc Hb];
    apply orb_false_iff in Hc as [Hw Hq].
  cbn [app shlex_go]; rewrite Hw, Hq, Hb, (IH _ Hp); cbn [rev].
  rewrite <- app_assoc; reflexivity.
Qed.

Lemma shlex_go_words (ws : list string) (acc : list string) :
  Forall (fun w => w <> EmptyString /\
    forallb (fun c => negb (is_ws c || is_quote c || Ascii.eqb c BACKSLASH))
            (list_ascii_of_string w) = true) ws ->
  ws <> [] ->
  shlex_go (list_ascii_of_string (String.concat " " ws)) LWs [] acc = Ok (rev acc ++ ws).
Proof.
  revert acc; induction ws as [|w ws IH]; intros acc Hws Hne; [congruence|].
  inversion Hws as [|? ? [Hw Hp] Hws']; subst.
  destruct w as [|c w]; [congruence|].
  cbn [list_ascii_of_string forallb] in Hp; apply andb_true_iff in Hp as [Hc Hp].
  pose proof Hc as Hc'.
  apply negb_true_iff, orb_false_iff in Hc' as [Hc' Hb];
    apply orb_false_iff in Hc' as [Hw' Hq].
  assert (Hw0 : string_of_list_ascii (rev (rev (list_ascii_of_string w) ++ [c])) = String c w).
  { rewrite rev_app_distr, rev_involutive; cbn [rev app string_of_list_ascii].
    rewrite string_of_list_ascii_of_string; reflexivity. }
  destruct ws as [|w' ws].
  - cbn [String.concat list_ascii_of_string shlex_go]; rewrite Hw', Hb, Hq.
    rewrite <- (app_nil_r (list_ascii_of_string w)), (shlex_go_word _ _ _ _ Hp).
    cbn [shlex_go]; unfold emit; rewrite Hw0; reflexivity.
  - change (String.concat " " (String c w :: w' :: ws))
      with (String c w ++ " " ++ String.concat " " (w' :: ws))%string.
    rewrite list_ascii_of_string_app; cbn [list_ascii_of_string app shlex_go].
    rewrite Hw', Hb, Hq, (shlex_go_word _ _ _ _ Hp); cbn [append list_ascii_of_string shlex_go].
    replace (is_ws " "%char) with true by reflexivity.
    unfold emit; rewrite Hw0, (IH _ Hws' ltac:(discriminate)); cbn [rev].
    rewrite <- app_assoc; reflexivity.
Qed.

(** X11: [shlex.split] returns words joined by single spaces unchanged,
    as long as each word is non-empty and holds no whitespace, quote or
    backslash; the empty string splits into no words. *)
Theorem shlex_split_plain_words (ws : list string) :
  Forall (fun w => w <> EmptyString /\
    forallb (fun c => negb (is_ws c || is_quote c || Ascii.eqb c BACKSLASH))
            (list_ascii_of_string w) = true) ws ->
  shlex_split (String.concat " " ws) = Ok ws.
Proof.
  intros Hws; unfold shlex_split; destruct ws as [|w ws]; [reflexivity|].
  exact (shlex_go_words _ [] Hws ltac:(discriminate)).
Qed.

Lemma shlex_split_plain_words_witness :
  shlex_split "--dir /a::/b --wasm max-wasm-stack=1048576"%string =
    Ok ["--dir"; "/a::/b"; "--wasm"; "max-wasm-stack=1048576"]%string.
Proof.
  apply (shlex_split_plain_words ["--dir"; "/a::/b"; "--wasm"; "max-wasm-stack=1048576"]%string).
  repeat (apply Forall_cons; [split; [discriminate|reflexivity]|]); apply Forall_nil.
Defined.

(* ------------------------------------------------------------------ *)
(** ** [os.path.abspath] resolves [.] and [..] *)

Lemma split_on_not_nil (sep : ascii) (s : string) : split_on sep s <> [].
Proof.
  induction s as [|c s IH]; cbn [split_on]; [discriminate|].
  destruct (split_on sep s); [congruence|]; destruct (Ascii.eqb c sep); discriminate.
Qed.

Lemma split_on_no_sep (sep : ascii) (s : string) :
  Forall (fun w => contains_char sep w = false) (split_on sep s).
Proof.
  induction s as [|c s IH]; cbn [split_on]; [repeat constructor|].
  destruct (split_on sep s) as [|w ws]; [constructor|].
  inversion IH as [|? ? Hw Hws]; subst.
  destruct (Ascii.eqb c sep) eqn:E; [repeat constructor; assumption|].
  constructor; [|exact Hws]; cbn [contains_char].
  rewrite Hw, orb_false_r, Ascii.eqb_sym; exact E.
Qed.

Lemma norm_comps_good (comps stack : list string) :
  Forall (fun c => contains_char SLASH c = false) comps ->
  Forall good_comp stack -> Forall good_comp (norm_comps true comps stack).
Proof.
  revert stack; induction comps as [|c comps IH]; intros stack Hc Hs; [exact Hs|].
  inversion Hc as [|? ? Hc0 Hc']; subst; cbn [norm_comps].
  destruct (c =? EmptyString)%string eqn:E1; [apply IH; assumption|].
  destruct (c =? ".")%string eqn:E2; [apply IH; assumption|]; cbn [orb negb andb].
  destruct (c =? "..")%string eqn:E3; cbn [negb orb].
  - destruct stack as [|top stack]; [apply IH; assumption|].
    inversion Hs as [|? ? [_ [_ [Ht _]]] Hs']; subst.
    apply String.eqb_neq in Ht; rewrite Ht; apply IH; assumption.
  - apply IH; [assumption|constructor; [|exact Hs]].
    apply String.eqb_neq in E1, E2, E3; repeat split; assumption.
Qed.

Lemma isabs_app (a x : string) : isabs a = true -> isabs (a ++ x) = true.
Proof.
  destruct a as [|c a]; [discriminate|]; unfold isabs; cbn [String.prefix append].
  destruct (Ascii.ascii_dec "/" c); [destruct (a ++ x)%string; reflexivity|discriminate].
Qed.

Lemma split_on_slash_cons (s : string) :
  split_on SLASH (String SLASH s) = EmptyString :: split_on SLASH s.
Proof.
  cbn [split_on]; pose proof (split_on_not_nil SLASH s) as H.
  destruct (split_on SLASH s); [congruence|reflexivity].
Qed.

Lemma split_normpath_abs (p : string) :
  isabs p = true ->
  Forall (fun c => c = EmptyString \/ good_comp c) (split_on SLASH (normpath p)).
Proof.
  intros Ha; unfold normpath.
  destruct (p =? EmptyString)%string eqn:E; [apply String.eqb_eq in E; subst; discriminate|].
  rewrite Ha.
  set (stack := norm_comps true (split_on SLASH p) []).
  assert (Hg : Forall good_comp stack)
    by (apply norm_comps_good; [apply split_on_no_sep|constructor]).
  assert (Hb : Forall (fun c => c = EmptyString \/ good_comp c)
                 (split_on SLASH (String.concat "/" (rev stack)))).
  { destruct (rev stack) as [|c cs] eqn:Er; [repeat constructor; left; reflexivity|].
    assert (Hg' : Forall good_comp (c :: cs)) by (rewrite <- Er; apply Forall_rev, Hg).
    change (String.concat "/" (c :: cs)) with (String.concat (String SLASH EmptyString) (c :: cs)).
    rewrite (split_on_concat SLASH (c :: cs)); [|discriminate|].
    - eapply Forall_impl; [|exact Hg']; intros x Hx; right; exact Hx.
    - eapply Forall_impl; [|exact Hg']; intros x Hx; apply Hx. }
  assert (Hs : forall r, Forall (fun c => c = EmptyString \/ good_comp c) (split_on SLASH r) ->
             Forall (fun c => c = EmptyString \/ good_comp c) (split_on SLASH (String SLASH r))).
  { intros r Hr; rewrite split_on_slash_cons; constructor; [left; reflexivity|exact Hr]. }
  unfold isabs in Ha; rewrite Ha.
  destruct (String.prefix "//" p && negb (String.prefix "///" p)); cbn [append String.eqb].
  - apply Hs, Hs, Hb.
  - apply Hs, Hb.
Qed.

(** X12: once the working directory is absolute, [os.path.abspath]
    resolves every [.] and [..]: the path components the filesystem
    looks up for any [p] contain neither, so no relative path climbs
    out of the root. *)
Theorem canon_no_dot_components (h : host) (p : string) :
  isabs (h_cwd h) = true ->
  ~ In "."%string (canon h p) /\ ~ In ".."%string (canon h p).
Proof.
  intros Hcwd.
  assert (Ha : isabs (if isabs p then p else path_join (h_cwd h) p) = true).
  { destruct (isabs p) eqn:Ep; [exact Ep|]; unfold path_join; rewrite Ep.
    destruct (h_cwd h =? EmptyString)%string eqn:Ec.
    - apply String.eqb_eq in Ec; rewrite Ec in Hcwd; discriminate.
    - destruct (match String.get (String.length (h_cwd h) - 1) (h_cwd h) with
                | Some c => Ascii.eqb c SLASH | None => false end);
        apply isabs_app, Hcwd. }
  assert (Hf : Forall good_comp (canon h p)).
  { unfold canon, abspath.
    assert (Hs := split_normpath_abs _ Ha).
    assert (Hs' : Forall (fun c => c = EmptyString \/ good_comp c)
                    (split_on SLASH (normpath (if isabs p then p else path_join (h_cwd h) p))))
      by exact Hs.
    destruct (isabs p); apply Forall_forall; intros x Hx;
      apply filter_In in Hx as [Hx Hn]; apply negb_true_iff, String.eqb_neq in Hn;
      rewrite Forall_forall in Hs'; destruct (Hs' x Hx) as [He|Hg]; congruence. }
  rewrite Forall_forall in Hf; split; intros Hin; apply Hf in Hin as (_ & H1 & H2 & _); congruence.
Qed.

Lemma canon_no_dot_components_witness :
  canon (demo_host true EmptyString) "../../etc/./x/.."%string = ["etc"]%string /\
  ~ In ".."%string (canon (demo_host true EmptyString) "../../etc/./x/.."%string).
Proof.
  split; [vm_compute; reflexivity|].
  exact (proj2 (canon_no_dot_components (demo_host true EmptyString) _ eq_refl)).
Defined.

(* ------------------------------------------------------------------ *)
(** ** [main.run]: the port *)

Lemma py_str_int_nonempty (v : Z) (s : string) :
  py_str_int v = Ok s -> (s =? EmptyString)%string = false.
Proof.
  intros H; apply py_int_str in H.
  destruct s; [discriminate|reflexivity].
Qed.

(** X13: [run] reads back a port written as [str(n)]: with [PORT] set to
    the decimal form of [n], [uvicorn.run] gets port [n], on [HOST] or
    else [127.0.0.1]. *)
Theorem run_port_str (h : host) (n : Z) (s : string) :
  environ_get h "PORT" = Some s -> py_str_int n = Ok s ->
  Main.run h = Some (match environ_get h "HOST" with
                     | Some v => v | None => "127.0.0.1"%string end, n).
Proof.
  intros Hp Hs; unfold Main.run; rewrite Hp, (py_str_int_nonempty _ _ Hs), (py_int_str _ _ Hs).
  reflexivity.
Qed.

Lemma run_port_str_witness :
  Main.run {| h_env := [("PORT", "8080")]%string; h_fs := []; h_cwd := "/"%string;
              h_home := "/root"%string |} = Some ("127.0.0.1"%string, 8080%Z).
Proof. refine (run_port_str _ 8080 "8080" _ _); vm_compute; reflexivity. Defined.
